(** * TayLaw front end: multi-document upload, status polling, progress
    monitor and issue list

    A shallow embedding of the client-side logic of the TayLaw legal
    assistant:

    - [MultiDocumentUpload]   (components/MultiDocumentUpload.tsx, first
      component): the document list, the prompt and business context,
      [handleSubmit], [pollBatchStatus], the polling timers and
      [downloadBatchReport];
    - [AgentMonitor]          (the progress monitor with [getStepProgress],
      in components/DocumentUpload.tsx), and [MonitorSteps] with its
      [getMainAgents];
    - [ScrollableIssuesList]  ([parseIssuesFromAnalysis],
      [toggleIssueExpansion] and [handleClauseClick], in the same file);
    - [DisplayText]           ([cleanTextForDisplay]);
    - [DocumentUpload]        (the single-document form of
      components/DocumentUpload.tsx: [loadDocumentContent] and
      [handleSubmit]);
    - [DocumentTabs]          (the cache of document texts, in
      components/AnalysisResults.tsx);
    - [AnalysisResults]       ([parseAnalysisWithReferences], in the same
      file).

    React state is a record that the handlers pass along; [fetch], the
    exceptions of the [try]/[catch] blocks and the browser timers are the
    effects of a small monad.  The back end is not part of the component:
    what it answers is an input of each handler.  A handler runs to its
    end before the next event is handled, so an [await] is a point where
    the answer of the back end comes in and nothing else.  The cells that
    only steer the layout (active document, layout mode, highlighted
    clause, issue view) are left out.

    JavaScript strings are Rocq strings whose characters are code units
    of one byte; numbers that count documents, chunks or per cent are
    integers. *)

From Stdlib Require Import ZArith String Ascii List Bool Lia.
From stdpp Require Import base option list strings gmap pretty.

Local Open Scope string_scope.
Local Open Scope Z_scope.

(** ** JavaScript string primitives *)

Module Js.

(** [\s] of a regular expression and the characters removed by [trim()]:
    tab, line feed, vertical tab, form feed, carriage return, space and
    the no-break space. *)
Definition is_space (c : ascii) : bool :=
  match c with
  | "009" | "010" | "011" | "012" | "013" | " " | "160" => true
  | _ => false
  end%char.

(** [\d] *)
Definition is_digit (c : ascii) : bool :=
  let n := nat_of_ascii c in (48 <=? n)%nat && (n <=? 57)%nat.

Fixpoint trimStart (s : string) : string :=
  match s with
  | String c s' => if is_space c then trimStart s' else s
  | EmptyString => EmptyString
  end.

Definition trimEnd (s : string) : string :=
  String.rev (trimStart (String.rev s)).

Definition trim (s : string) : string := trimEnd (trimStart s).

(** A string in a boolean position: true unless empty. *)
Definition truthy (s : string) : bool :=
  match s with EmptyString => false | String _ _ => true end.

(** An optional string in a boolean position ([undefined] is false). *)
Definition truthy_opt (o : option string) : bool :=
  match o with Some s => truthy s | None => false end.

(** [a || b] on optional strings, with a defined right operand. *)
Definition or_else (o : option string) (d : string) : string :=
  match o with
  | Some s => if truthy s then s else d
  | None => d
  end.

(** [s.slice(0, n)] *)
Definition slice0 (n : nat) (s : string) : string := substring 0 n s.

(** [s.repeat(n)] *)
Fixpoint repeat (s : string) (n : nat) : string :=
  match n with
  | O => EmptyString
  | S n' => s +:+ repeat s n'
  end.

(** [s.includes(k)] *)
Fixpoint includes (s k : string) : bool :=
  match s with
  | EmptyString => String.prefix k EmptyString
  | String _ s' => String.prefix k s || includes s' k
  end.

(** [toLowerCase()] on one code unit: A-Z, and the accented capitals
    U+00C0..U+00DE without the multiplication sign U+00D7. *)
Definition lower (c : ascii) : ascii :=
  let n := nat_of_ascii c in
  if ((65 <=? n) && (n <=? 90))%nat then ascii_of_nat (n + 32)
  else if ((192 <=? n) && (n <=? 222) && negb (n =? 215))%nat
       then ascii_of_nat (n + 32)
  else c.

Fixpoint toLowerCase (s : string) : string :=
  match s with
  | EmptyString => EmptyString
  | String c s' => String (lower c) (toLowerCase s')
  end.

(** [s.split('\n')]: the pieces between line feeds; never empty. *)
Fixpoint split_go (sep : ascii) (cur : string) (s : string) : list string :=
  match s with
  | EmptyString => [String.rev cur]
  | String c s' =>
      if Ascii.eqb c sep then String.rev cur :: split_go sep EmptyString s'
      else split_go sep (String c cur) s'
  end.

Definition split (sep : ascii) (s : string) : list string :=
  split_go sep EmptyString s.

(** [l.join(sep)] *)
Definition join (sep : string) (l : list string) : string :=
  String.concat sep l.

(** A number in a template literal. *)
Definition show (n : Z) : string := pretty n.

End Js.

(** ** The network and the effects of a handler *)

Module Net.

(** [await response.json()]: the parsed body, or the rejection of the
    promise with the message of its error. *)
Inductive Parsed (A : Type) : Type :=
| SyntaxError (msg : string)
| Value (a : A).
Arguments SyntaxError {A} msg.
Arguments Value {A} a.

(** A response: [response.ok] with a body of the expected shape, or not
    ok with a status text and an error body whose [error] field may be
    missing. *)
Inductive Response (A : Type) : Type :=
| Ok200 (body : Parsed A)
| NotOk (statusText : string) (errorData : Parsed (option string)).
Arguments Ok200 {A} body.
Arguments NotOk {A} statusText errorData.

(** [await fetch(...)]: the promise rejects (network error) or resolves
    to a response. *)
Inductive Outcome (A : Type) : Type :=
| Rejects (msg : string)
| Resolves (r : Response A).
Arguments Rejects {A} msg.
Arguments Resolves {A} r.

End Net.

Module MultiDocumentUpload.
Import Net.

(** *** Data *)

Record File := mkFile { name : string; size : Z }.

(** [status] is the string it is at run time: [pollBatchStatus] stores
    what the back end sends, under a cast. *)
Record DocumentFile := mkDocumentFile {
  id : string;
  file : File;
  status : string;   (* 'pending' | 'uploading' | 'analyzing' | 'completed' | 'failed' *)
  analysis : option string;
  error : option string;
  progress : Z
}.

Record ResultEntry := mkResultEntry {
  r_filename : string;
  r_status : string;   (* 'completed' | 'failed' *)
  r_analysis : option string;
  r_error : option string
}.

Record BatchResult := mkBatchResult {
  batch_id : option string;
  total_documents : Z;
  completed : Z;
  failed : Z;
  analysis_type : string;   (* 'unified' | 'individual' *)
  unified_analysis : option string;
  source_documents : option (list string);
  results : option (list ResultEntry)
}.

(** One entry of [status.documents] in the answer of batch-status;
    [s_progress] is [None] when the field is missing. *)
Record StatusDoc := mkStatusDoc {
  s_filename : string;
  s_status : string;
  s_progress : option Z
}.

(** The answer of batch-status; the code reads [status.documents?.],
    so the list may be missing. *)
Record StatusSnapshot := mkStatusSnapshot {
  s_documents : option (list StatusDoc)
}.

Record PredefinedPrompt := mkPrompt {
  p_id : string;
  p_name : string;
  p_description : string;
  template : string;
  version : string
}.

(** The [useState] cells of the component that the handlers below read
    or write. *)
Record State := mkState {
  documents : list DocumentFile;
  selectedPromptId : string;
  customPrompt : string;
  userContext : string;
  isProcessing : bool;
  batchResult : option BatchResult;
  currentBatchId : option string
}.

Inductive Request : Type :=
| PostAnalyzeMultiple (files : list File) (prompt : string)
| GetBatchStatus (batchId : string)
| GetBatchResults (batchId : string).

(** What the back end answers to each request at a given moment. *)
Record Server := mkServer {
  analyze_multiple : list File → string → Outcome BatchResult;
  batch_status : string → Outcome StatusSnapshot;
  batch_results : string → Outcome BatchResult
}.

(** The component with its environment: the React state, the live
    [setInterval] handles (each with the batch id its callback polls),
    the pending [setTimeout] handles (each with the interval handle and
    the [isProcessing] value its callback captured), and the requests
    sent so far, oldest first. *)
Record World := mkWorld {
  ui : State;
  nextTimer : nat;
  intervals : gmap nat string;
  timeouts : gmap nat (nat * bool);
  sent : list Request
}.

(** *** The handler monad: state, requests and exceptions *)

Inductive Completion (A : Type) : Type :=
| Returned (a : A)
| Thrown (msg : string).
Arguments Returned {A} a.
Arguments Thrown {A} msg.

Definition M (A : Type) : Type := World → Completion A * World.

#[global] Instance M_ret : MRet M := λ A a w, (Returned a, w).

#[global] Instance M_bind : MBind M := λ A B f m w,
  match m w with
  | (Returned a, w') => f a w'
  | (Thrown msg, w') => (Thrown msg, w')
  end.

#[global] Instance M_throw : MThrow string M := λ A msg w, (Thrown msg, w).

(** [try { body } catch (error) { handler(error.message) }]: the state
    changes made before the exception stay. *)
Definition try_catch {A} (body : M A) (handler : string → M A) : M A :=
  λ w, match body w with
       | (Returned a, w') => (Returned a, w')
       | (Thrown msg, w') => handler msg w'
       end.

Definition get_ui : M State := λ w, (Returned (ui w), w).

Definition modify_ui (f : State → State) : M unit := λ w,
  (Returned tt,
   mkWorld (f (ui w)) (nextTimer w) (intervals w) (timeouts w) (sent w)).

(** [setDocuments(prev => f(prev))] *)
Definition setDocuments (f : list DocumentFile → list DocumentFile) : M unit :=
  modify_ui (λ s, mkState (f (documents s)) (selectedPromptId s)
                      (customPrompt s) (userContext s) (isProcessing s)
                      (batchResult s) (currentBatchId s)).

Definition setIsProcessing (b : bool) : M unit :=
  modify_ui (λ s, mkState (documents s) (selectedPromptId s)
                      (customPrompt s) (userContext s) b
                      (batchResult s) (currentBatchId s)).

Definition setBatchResult (r : option BatchResult) : M unit :=
  modify_ui (λ s, mkState (documents s) (selectedPromptId s)
                      (customPrompt s) (userContext s) (isProcessing s)
                      r (currentBatchId s)).

Definition setCurrentBatchId (b : option string) : M unit :=
  modify_ui (λ s, mkState (documents s) (selectedPromptId s)
                      (customPrompt s) (userContext s) (isProcessing s)
                      (batchResult s) b).

Definition setSelectedPromptId (v : string) (s : State) : State :=
  mkState (documents s) v (customPrompt s) (userContext s)
          (isProcessing s) (batchResult s) (currentBatchId s).

Definition setCustomPrompt (v : string) (s : State) : State :=
  mkState (documents s) (selectedPromptId s) v (userContext s)
          (isProcessing s) (batchResult s) (currentBatchId s).

Definition setUserContext (v : string) (s : State) : State :=
  mkState (documents s) (selectedPromptId s) (customPrompt s) v
          (isProcessing s) (batchResult s) (currentBatchId s).

(** [await fetch(req)]: the request leaves, then the promise settles. *)
Definition fetch {A} (req : Request) (o : Outcome A) : M (Response A) := λ w,
  let w' := mkWorld (ui w) (nextTimer w) (intervals w) (timeouts w)
                    (sent w ++ [req]) in
  match o with
  | Rejects msg => (Thrown msg, w')
  | Resolves r => (Returned r, w')
  end.

(** [await response.json()] *)
Definition json {A} (p : Parsed A) : M A :=
  match p with
  | SyntaxError msg => mthrow msg
  | Value a => mret a
  end.

(** [setInterval(callback, 1000)] with a callback that polls [batchId]. *)
Definition setInterval (batchId : string) : M nat := λ w,
  (Returned (nextTimer w),
   mkWorld (ui w) (S (nextTimer w)) (<[nextTimer w := batchId]> (intervals w))
           (timeouts w) (sent w)).

Definition clearInterval (h : nat) : M unit := λ w,
  (Returned tt,
   mkWorld (ui w) (nextTimer w) (delete h (intervals w)) (timeouts w) (sent w)).

(** [setTimeout(callback, 300000)] with a callback that holds the
    interval handle and the [isProcessing] of its closure. *)
Definition setTimeout (pollInterval : nat) (captured : bool) : M nat := λ w,
  (Returned (nextTimer w),
   mkWorld (ui w) (S (nextTimer w)) (intervals w)
           (<[nextTimer w := (pollInterval, captured)]> (timeouts w)) (sent w)).

(** [maxFiles] of the drop zone: the most files one drop may bring. *)
Definition maxFiles : nat := 10.

(** *** Prompts *)

Definition nl : string := String "010"%char EmptyString.

Definition predefinedPrompts : list PredefinedPrompt := [
  mkPrompt "red-flags-review" "Red Flags Review"
    "Automated contract risk assessment and compliance issue identification with evidence-based findings"
    "Please perform a comprehensive red flags review on this contract, identifying potential legal risks, compliance issues, and problematic clauses. Focus on liability limitations, termination conditions, payment terms, intellectual property clauses, indemnification provisions, and any unusual or potentially problematic terms. Provide specific evidence from the contract text for each identified risk."
    "1.0";
  mkPrompt "review-against-base" "Review Against Base & Summarize Changes"
    "Compare contract versions and highlight modifications with impact analysis"
    "Compare this contract against standard templates or previous versions to identify all changes and modifications. Highlight additions, deletions, and alterations. Assess the business impact and legal risk of each change. Summarize departures from standard terms and flag any modifications that require special attention during review."
    "1.0";
  mkPrompt "negotiation-support" "Negotiation Support"
    "Help draft responses, track departures from standard terms, and analyze negotiation positions"
    "Analyze this contract for negotiation support. Identify unfavorable terms, track departures from standard positions, and suggest negotiation strategies. Highlight key terms that should be challenged, modified, or accepted. Provide recommendations for response drafting and position strength assessment on critical clauses."
    "1.0";
  mkPrompt "custom" "Custom Analysis"
    "Create your own analysis instructions for specialized use cases"
    ""
    "1.0"
].

(** The base prompt of [getFinalPrompt]:
    [selectedPromptId === 'custom' ? customPrompt : selectedPrompt?.template || ''] *)
Definition basePrompt (s : State) : string :=
  let selectedPrompt :=
    List.find (λ p, String.eqb (p_id p) (selectedPromptId s)) predefinedPrompts in
  if String.eqb (selectedPromptId s) "custom" then customPrompt s
  else Js.or_else (template <$> selectedPrompt) "".

Definition contextLabel : string := nl +:+ nl +:+ "Additional Context: ".

Definition getFinalPrompt (s : State) : string :=
  if Js.truthy (Js.trim (userContext s))
  then basePrompt s +:+ contextLabel +:+ userContext s
  else basePrompt s.

(** The [onChange] of the business-context textarea:
    [setUserContext(e.target.value.slice(0, 500))] *)
Definition onUserContextChange (value : string) (s : State) : State :=
  setUserContext (Js.slice0 500 value) s.

(** *** The document list *)

(** [onDrop]: one pending document per accepted file, appended to the
    list; [now] is [Date.now()]. *)
Definition newDocument (now : Z) (index : nat) (f : File) : DocumentFile :=
  mkDocumentFile ("doc_" +:+ Js.show now +:+ "_" +:+ Js.show (Z.of_nat index))
                 f "pending" None None 0.

Definition onDrop (now : Z) (acceptedFiles : list File) : M unit :=
  let newDocuments := imap (newDocument now) acceptedFiles in
  setDocuments (λ prev, (prev ++ newDocuments)%list).

Definition removeDocument (i : string) : M unit :=
  setDocuments (filter (λ doc, id doc ≠ i)).

Definition clearAll : M unit :=
  setDocuments (λ _, []) ;;
  setBatchResult None ;;
  setCurrentBatchId None.

(** *** Status polling *)

Definition is_terminal (st : string) : bool :=
  String.eqb st "completed" || String.eqb st "failed".

(** [status.documents?.find(d => d.filename === name)] *)
Definition findStatusDoc (snap : StatusSnapshot) (nm : string) : option StatusDoc :=
  ds ← s_documents snap; List.find (λ d, String.eqb (s_filename d) nm) ds.

(** [statusDoc.progress || doc.progress] *)
Definition progress_or (reported : option Z) (previous : Z) : Z :=
  match reported with
  | Some p => if p =? 0 then previous else p
  | None => previous
  end.

(** The function mapped over the documents by [pollBatchStatus]. *)
Definition applyStatus (snap : StatusSnapshot) (doc : DocumentFile) : DocumentFile :=
  match findStatusDoc snap (name (file doc)) with
  | Some statusDoc =>
      mkDocumentFile (id doc) (file doc) (s_status statusDoc)
                     (analysis doc) (error doc)
                     (progress_or (s_progress statusDoc) (progress doc))
  | None => doc
  end.

(** [status.documents?.every(d => d.status === 'completed' || d.status === 'failed')];
    [None] is [undefined]. *)
Definition isComplete (snap : StatusSnapshot) : option bool :=
  forallb (λ d, is_terminal (s_status d)) <$> s_documents snap.

(** [if (x)] and [!x] on a value that is a boolean or [undefined]. *)
Definition truthy_bool (o : option bool) : bool := from_option (λ b, b) false o.
Definition not_bool (o : option bool) : bool := negb (truthy_bool o).

Definition pollBatchStatus (srv : Server) (batchId : string) : M bool :=
  try_catch
    (response ← fetch (GetBatchStatus batchId) (batch_status srv batchId);
     match response with
     | Ok200 body =>
         status ← json body;
         setDocuments (map (applyStatus status)) ;;
         let complete := isComplete status in
         if truthy_bool complete then
           resultsResponse ← fetch (GetBatchResults batchId) (batch_results srv batchId);
           match resultsResponse with
           | Ok200 resultsBody =>
               results ← json resultsBody;
               setBatchResult (Some results) ;;
               setIsProcessing false ;;
               setCurrentBatchId None ;;
               mret false
           | NotOk _ _ => mret (not_bool complete)
           end
         else mret (not_bool complete)
     | NotOk _ _ => mret false
     end)
    (λ _, mret false).

(** *** Submission *)

Definition markAll (st : string) (pr : Z) (doc : DocumentFile) : DocumentFile :=
  mkDocumentFile (id doc) (file doc) st (analysis doc) (error doc) pr.

Definition markFailed (msg : string) (doc : DocumentFile) : DocumentFile :=
  mkDocumentFile (id doc) (file doc) "failed" (analysis doc) (Some msg) 100.

(** The fallback for an answer without batch id, individual results. *)
Definition applyResult (rs : list ResultEntry) (doc : DocumentFile) : DocumentFile :=
  match List.find (λ r, String.eqb (r_filename r) (name (file doc))) rs with
  | Some a =>
      mkDocumentFile (id doc) (file doc)
                     (if String.eqb (r_status a) "completed" then "completed" else "failed")
                     (r_analysis a) (r_error a) 100
  | None =>
      mkDocumentFile (id doc) (file doc) "failed" (analysis doc)
                     (Some "No result found") 100
  end.

(** The fallback for a unified analysis. *)
Definition markUnified (doc : DocumentFile) : DocumentFile :=
  mkDocumentFile (id doc) (file doc) "completed"
                 (Some "See unified analysis below") (error doc) 100.

Definition handleSubmit (srv : Server) : M unit :=
  closure ← get_ui;
  let finalPrompt := getFinalPrompt closure in
  if (length (documents closure) =? 0)%nat || negb (Js.truthy (Js.trim finalPrompt))
  then mret tt
  else
    setIsProcessing true ;;
    setBatchResult None ;;
    setDocuments (map (markAll "uploading" 10)) ;;
    try_catch
      (let files := file <$> documents closure in
       setDocuments (map (markAll "analyzing" 30)) ;;
       response ← fetch (PostAnalyzeMultiple files finalPrompt)
                        (analyze_multiple srv files finalPrompt);
       match response with
       | NotOk statusText errorBody =>
           errorData ← json errorBody;
           mthrow (Js.or_else errorData
                     ("Failed to analyze documents: " +:+ statusText))
       | Ok200 body =>
           result ← json body;
           if Js.truthy_opt (batch_id result) then
             let b := default "" (batch_id result) in
             setCurrentBatchId (Some b) ;;
             pollInterval ← setInterval b;
             setTimeout pollInterval (isProcessing closure) ;;
             mret tt
           else
             setBatchResult (Some result) ;;
             (* [result.analysis_type === 'individual' && result.results] *)
             match (if String.eqb (analysis_type result) "individual"
                    then results result else None) with
             | Some rs => setDocuments (map (applyResult rs))
             | None => setDocuments (map markUnified)
             end ;;
             setIsProcessing false
       end)
      (λ msg,
         setDocuments (map (markFailed msg)) ;;
         setIsProcessing false).

(** *** The timers started by [handleSubmit] *)

Definition liveInterval (h : nat) : M (option string) := λ w,
  (Returned (intervals w !! h), w).

(** A timeout fires once: reading it removes it from the pending ones. *)
Definition takeTimeout (t : nat) : M (option (nat * bool)) := λ w,
  (Returned (timeouts w !! t),
   mkWorld (ui w) (nextTimer w) (intervals w) (delete t (timeouts w)) (sent w)).

(** The callback of [setInterval(..., 1000)]; a cleared interval does
    not call it any more. *)
Definition onInterval (srv : Server) (h : nat) : M unit :=
  live ← liveInterval h;
  match live with
  | None => mret tt
  | Some batchId =>
      try_catch
        (shouldContinue ← pollBatchStatus srv batchId;
         if negb shouldContinue then clearInterval h else mret tt)
        (λ _, clearInterval h ;; setIsProcessing false)
  end.

(** The callback of [setTimeout(..., 300000)]: [isProcessing] is the
    value held by the closure of the [handleSubmit] that set the timer. *)
Definition onTimeout (t : nat) : M unit :=
  pending ← takeTimeout t;
  match pending : option (nat * bool) with
  | None => mret tt
  | Some (pollInterval, captured) =>
      clearInterval pollInterval ;;
      if captured then setIsProcessing false else mret tt
  end.

(** The Analyze button: [disabled={isProcessing || documents.length === 0
    || !getFinalPrompt().trim()}], [onClick={handleSubmit}]. *)
Definition analyzeDisabled (s : State) : bool :=
  isProcessing s || (length (documents s) =? 0)%nat
  || negb (Js.truthy (Js.trim (getFinalPrompt s))).

Definition onAnalyzeClick (srv : Server) : M unit :=
  s ← get_ui;
  if analyzeDisabled s then mret tt else handleSubmit srv.

(** *** The component as a transition system *)

Inductive Event : Type :=
| Drop (now : Z) (acceptedFiles : list File)
| Remove (i : string)
| ClearAll
| SelectPrompt (i : string)
| EditCustomPrompt (value : string)
| EditUserContext (value : string)
| ClickAnalyze (srv : Server)
| IntervalFires (h : nat) (srv : Server)
| TimeoutFires (t : nat).

Definition handler (e : Event) : M unit :=
  match e with
  | Drop now acceptedFiles => onDrop now acceptedFiles
  | Remove i => removeDocument i
  | ClearAll => clearAll
  | SelectPrompt i => modify_ui (setSelectedPromptId i)
  | EditCustomPrompt value => modify_ui (setCustomPrompt value)
  | EditUserContext value => modify_ui (onUserContextChange value)
  | ClickAnalyze srv => onAnalyzeClick srv
  | IntervalFires h srv => onInterval srv h
  | TimeoutFires t => onTimeout t
  end.

Definition step (w : World) (e : Event) : World := snd (handler e w).

Definition run (w : World) (es : list Event) : World := foldl step w es.

(** The [useState] defaults; no timer, nothing sent. *)
Definition initialState : State :=
  mkState [] "red-flags-review" "" "" false None None.

Definition initialWorld : World := mkWorld initialState 0 ∅ ∅ [].

(** *** The downloaded report *)

(** [batchResult.unified_analysis || batchResult.results?.[0]?.analysis
    || 'Analysis completed successfully.'] *)
Definition analysisContent (b : BatchResult) : string :=
  Js.or_else (unified_analysis b)
    (Js.or_else (rs ← results b; r ← head rs; r_analysis r)
       "Analysis completed successfully.").

Definition reportTitle (b : BatchResult) : string :=
  if total_documents b =? 1 then "LEGAL DOCUMENT ANALYSIS REPORT"
  else "MULTI-DOCUMENT LEGAL ANALYSIS REPORT".

Definition sourceLine (b : BatchResult) : string :=
  match source_documents b with
  | Some ds =>
      if (1 <? length ds)%nat
      then nl +:+ "Source Documents: " +:+ Js.join ", " ds
      else ""
  | None => ""
  end.

(** The template literal of [downloadBatchReport]; [localeDate] is
    [new Date().toLocaleDateString()]. *)
Definition reportContent (localeDate : string) (b : BatchResult) : string :=
  reportTitle b +:+ nl +:+
  Js.repeat "=" (String.length (reportTitle b)) +:+ nl +:+
  nl +:+
  "Analysis Date: " +:+ localeDate +:+ nl +:+
  (if 1 <? total_documents b
   then "Total Documents Analyzed: " +:+ Js.show (total_documents b) else "") +:+ nl +:+
  (if 0 <? completed b
   then "Successfully Processed: " +:+ Js.show (completed b) else "") +:+ nl +:+
  (if 0 <? failed b then "Failed: " +:+ Js.show (failed b) else "") +:+ nl +:+
  sourceLine b +:+ nl +:+
  nl +:+
  analysisContent b +:+ nl +:+
  nl +:+
  Js.repeat "=" 40 +:+ nl +:+
  "Generated by TayLaw Legal AI Assistant" +:+ nl.

(** [isoString] is [new Date().toISOString()]. *)
Definition reportFileName (isoString : string) (b : BatchResult) : string :=
  let day := hd "" (Js.split "T" isoString) in
  if total_documents b =? 1
  then "legal_analysis_" +:+ day +:+ ".txt"
  else "multi_document_analysis_" +:+ day +:+ ".txt".

(** [downloadBatchReport]: nothing without a batch result, else the
    name and the text of the downloaded file. *)
Definition downloadBatchReport (localeDate isoString : string) (s : State)
  : option (string * string) :=
  b ← batchResult s;
  Some (reportFileName isoString b, reportContent localeDate b).

End MultiDocumentUpload.

(** ** The progress monitor *)

Module AgentMonitor.

Record ParallelProcessingStatus := mkParallel {
  active : bool;
  total_chunks : Z;
  completed_chunks : Z;
  completion_percentage : Z
}.

(** The two [useState] cells that [getStepProgress] reads:
    [agentStates] maps an agent name to its status. *)
Record Monitor := mkMonitor {
  agentStates : gmap string string;
  parallelStatus : ParallelProcessingStatus
}.

(** [agentStates[agent] === st] *)
Definition agent_is (m : Monitor) (agent st : string) : bool :=
  bool_decide (agentStates m !! agent = Some st).

Definition getStepProgress (m : Monitor) (step : string) : Z :=
  let hasDocumentParser := agent_is m "Document Parser" "completed" in
  let hasChunking := agent_is m "Document Chunking Agent" "completed" in
  let parallelComplete :=
    (total_chunks (parallelStatus m) <=? completed_chunks (parallelStatus m))
    && (0 <? total_chunks (parallelStatus m)) in
  let hasCrossRef := agent_is m "Cross-Reference Agent" "completed" in
  let hasCombination := agent_is m "Results Combination Agent" "completed" in
  let hasReport := agent_is m "Report Generator" "completed" in
  if String.eqb step "parsing" then
    if hasDocumentParser then 100
    else if (0 <? size (agentStates m))%nat then 50 else 0
  else if String.eqb step "chunking" then
    if negb hasDocumentParser then 0
    else if hasChunking then 100
    else if agent_is m "Document Chunking Agent" "processing" then 50 else 10
  else if String.eqb step "analysis" then
    if negb hasChunking then 0
    else if total_chunks (parallelStatus m) =? 0 then 10
    else if parallelComplete then 100
    else Z.max 10 (completion_percentage (parallelStatus m))
  else if String.eqb step "cross_ref" then
    if negb parallelComplete then 0
    else if hasCrossRef then 100
    else if agent_is m "Cross-Reference Agent" "processing" then 50 else 10
  else if String.eqb step "combination" then
    if negb hasCrossRef then 0
    else if hasCombination then 100
    else if agent_is m "Results Combination Agent" "processing" then 50 else 10
  else if String.eqb step "report" then
    if negb hasCombination then 0
    else if hasReport then 100
    else if agent_is m "Report Generator" "processing" then 50 else 10
  else 0.

(** *** The join barrier, in the words of the specification *)

(** The steps of [getMainAgents] run in the order parsing, chunking,
    analysis, cross_ref, combination, report: the step immediately
    before [step]. *)
Definition previous_step (step : string) : string :=
  if String.eqb step "chunking" then "parsing"
  else if String.eqb step "analysis" then "chunking"
  else if String.eqb step "cross_ref" then "analysis"
  else if String.eqb step "combination" then "cross_ref"
  else if String.eqb step "report" then "combination"
  else "".

(** "every chunk task has reached a terminal state (completed_chunks >=
    total_chunks with total_chunks > 0)" *)
Definition all_chunks_terminal (m : Monitor) : Prop :=
  completed_chunks (parallelStatus m) >= total_chunks (parallelStatus m)
  ∧ total_chunks (parallelStatus m) > 0.

(** "the immediately preceding stage has completed", in the progress
    model: the step before stands at 100. *)
Definition predecessor_finished (m : Monitor) (step : string) : Prop :=
  getStepProgress m (previous_step step) = 100.

(** The stages behind the barrier. *)
Definition later_stage (step : string) : Prop :=
  step = "cross_ref" ∨ step = "combination" ∨ step = "report".

(** "the cross-reference step reports nonzero progress only when every
    chunk task has reached a terminal state, and each later stage
    (results combination, report generation) reports nonzero progress
    only after the immediately preceding stage has completed; no later
    stage ever shows progress before its predecessor finishes." *)
Definition later_stages_wait (m : Monitor) : Prop :=
  (getStepProgress m "cross_ref" ≠ 0 → all_chunks_terminal m)
  ∧ (getStepProgress m "combination" ≠ 0 → predecessor_finished m "combination")
  ∧ (getStepProgress m "report" ≠ 0 → predecessor_finished m "report").

End AgentMonitor.

(** ** The steps shown by the progress monitor *)

Module MonitorSteps.
Import AgentMonitor.

(** An entry of [getMainAgents]; the icon, which is not a one-byte
    string, is left out. *)
Record MainAgent := mkMainAgent {
  a_name : string;
  a_progress : Z;
  a_color : string;
  a_status : string
}.

Definition steps (m : Monitor) : list (string * Z) := [
  ("Document Parser", getStepProgress m "parsing");
  ("Document Chunking", getStepProgress m "chunking");
  ("Parallel Analysis", getStepProgress m "analysis");
  ("Cross-Reference", getStepProgress m "cross_ref");
  ("Results Combination", getStepProgress m "combination");
  ("Report Generation", getStepProgress m "report")
].

(** The colour and the status that [getMainAgents] gives to a progress. *)
Definition look (progress : Z) : string * string :=
  if progress =? 100 then ("bg-green-500", "completed")
  else if 0 <? progress then ("bg-blue-500", "processing")
  else ("bg-gray-300", "idle").

Definition getMainAgents (m : Monitor) : list MainAgent :=
  (λ step : string * Z,
     mkMainAgent step.1 step.2 (look step.2).1 (look step.2).2) <$> steps m.

(** The status under which the step called [nm] is shown. *)
Definition shown (m : Monitor) (nm : string) : option string :=
  a_status <$> List.find (λ a, String.eqb (a_name a) nm) (getMainAgents m).

(** All chunks are analysed, and there is at least one. *)
Definition chunks_done (m : Monitor) : Prop :=
  total_chunks (parallelStatus m) ≤ completed_chunks (parallelStatus m)
  ∧ 0 < total_chunks (parallelStatus m).

Definition finished (m : Monitor) (agent : string) : Prop :=
  agentStates m !! agent = Some "completed".

End MonitorSteps.

(** ** The issue list *)

Module ScrollableIssuesList.

Inductive Severity : Type := high | medium | low.

#[global] Instance Severity_eq_dec : EqDecision Severity.
Proof. solve_decision. Defined.

(** The fields of an [Issue] that come from the position of its section
    and from the keyword classification; the title, the clause and
    document references and the recommendation are cut out of the same
    section and are not modelled. *)
Record Issue := mkIssue {
  id : string;
  description : string;
  severity : Severity
}.

Definition highKeywords : list string :=
  ["critical"; "urgent"; "severe"; "major"; "high risk"; "dangerous";
   "liability"; "terminate"].

Definition mediumKeywords : list string :=
  ["moderate"; "medium"; "concern"; "issue"; "problem"; "review"].

Definition getSeverity (content : string) : Severity :=
  let lowerContent := Js.toLowerCase content in
  if existsb (λ keyword, Js.includes lowerContent keyword) highKeywords then high
  else if existsb (λ keyword, Js.includes lowerContent keyword) mediumKeywords then medium
  else low.

(** [\d+\.] at the head of [s]: a digit, then either more of the same or
    the dot. *)
Fixpoint digits_dot (s : string) : bool :=
  match s with
  | String c s' => Js.is_digit c && (digits_dot s' || String.prefix "." s')
  | EmptyString => false
  end.

(** The lookahead [(?=\d+\.|<bullet>|-)].  The bullet is not a one-byte
    character, so on the texts of this model its alternative never
    matches. *)
Definition lookahead (s : string) : bool :=
  digits_dot s || String.prefix "-" s.

(** [\s*(?=...)] at the head of [s], greedy with backtracking: the
    number of white-space characters consumed, if the match succeeds. *)
Fixpoint spaces_look (s : string) : option nat :=
  match s with
  | String c s' =>
      if Js.is_space c then
        match spaces_look s' with
        | Some k => Some (S k)
        | None => if lookahead s then Some O else None
        end
      else if lookahead s then Some O else None
  | EmptyString => if lookahead s then Some O else None
  end.

(** [text.split(/\n\s*(?=...)/)]: scan from the left; at a line feed
    where the separator matches, close the piece and skip what the
    separator consumed.  [cur] is the open piece, reversed; [skip] counts
    the characters of the separator still to pass. *)
Fixpoint split_go (skip : nat) (cur : string) (s : string) : list string :=
  match s with
  | EmptyString => [String.rev cur]
  | String c s' =>
      match skip with
      | S k => split_go k cur s'
      | O =>
          if Ascii.eqb c "010" then
            match spaces_look s' with
            | Some k => String.rev cur :: split_go k EmptyString s'
            | None => split_go O (String c cur) s'
            end
          else split_go O (String c cur) s'
      end
  end.

(** [text.split(...).filter(section => section.trim())] *)
Definition sections (text : string) : list string :=
  List.filter (λ section, Js.truthy (Js.trim section))
              (split_go O EmptyString text).

(** [section.split('\n').map(line => line.trim()).filter(line => line)] *)
Definition linesOf (section : string) : list string :=
  List.filter Js.truthy (Js.trim <$> Js.split "010" section).

Definition issueId (index : nat) : string :=
  "issue-" +:+ Js.show (Z.of_nat index).

(** The body of [sections.forEach((section, index) => ...)], pushing
    onto [issues] from left to right. *)
Fixpoint forEachSection (index : nat) (ss : list string) : list Issue :=
  match ss with
  | [] => []
  | section :: rest =>
      match linesOf section with
      | [] => forEachSection (S index) rest
      | firstLine :: more =>
          let restOfContent := Js.join " " more in
          mkIssue (issueId index)
                  (if Js.truthy restOfContent then restOfContent else firstLine)
                  (getSeverity section)
          :: forEachSection (S index) rest
      end
  end.

Definition parseIssuesFromAnalysis (text : string) : list Issue :=
  if negb (Js.truthy text) then [] else forEachSection 0 (sections text).

(** The order that the claim on the merged report asks for: no issue is
    followed by one of higher severity. *)
Definition rank (s : Severity) : nat :=
  match s with high => 0 | medium => 1 | low => 2 end.

Definition severity_sorted (l : list Issue) : Prop :=
  ∀ (i j : nat) (a b : Issue),
    (i < j)%nat → l !! i = Some a → l !! j = Some b →
    (rank (severity a) ≤ rank (severity b))%nat.

(** *** Expanding an issue and following its clause *)

(** [toggleIssueExpansion]: the next value of [expandedIssues]. *)
Definition toggleIssueExpansion (issueId : string) (prev : gset string) : gset string :=
  if decide (issueId ∈ prev) then prev ∖ {[issueId]} else prev ∪ {[issueId]}.

(** An entry of the [documents] property: [id], [file.name], [status]. *)
Record ListedDocument := mkListed {
  d_id : string;
  d_name : string;
  d_status : string
}.

(** [[^/.]+$] at the head of [s] *)
Fixpoint extension_chars (s : string) : bool :=
  match s with
  | EmptyString => false
  | String c s' =>
      negb (Ascii.eqb c "/" || Ascii.eqb c ".")
      && (negb (Js.truthy s') || extension_chars s')
  end.

(** [s.replace(/\.[^/.]+$/, "")]: the first place where the pattern
    matches is cut off with all that follows. *)
Fixpoint stripExtension (s : string) : string :=
  match s with
  | EmptyString => EmptyString
  | String c s' =>
      if Ascii.eqb c "." && extension_chars s' then EmptyString
      else String c (stripExtension s')
  end.

(** The callback of [documents.find] in [handleClauseClick]. *)
Definition names_document (documentName : string) (doc : ListedDocument) : bool :=
  Js.includes (Js.toLowerCase (d_name doc)) (Js.toLowerCase documentName)
  || Js.includes (Js.toLowerCase documentName)
                 (stripExtension (Js.toLowerCase (d_name doc))).

(** [handleClauseClick]: the first argument of [onClauseClick];
    [None] is [undefined]. *)
Definition targetDocumentId (documents : list ListedDocument)
    (documentName : option string) : option string :=
  let targetDocumentId := d_id <$> head documents in
  if Js.truthy_opt documentName then
    match List.find (names_document (default "" documentName)) documents with
    | Some matchedDoc => Some (d_id matchedDoc)
    | None => targetDocumentId
    end
  else targetDocumentId.

End ScrollableIssuesList.

(** ** Vocabulary of the statements *)

Module Vocabulary.
Import Net MultiDocumentUpload.

(** Whatever the handler [m] does, the world after it is related by
    [R] to the world before. *)
Definition respects (R : relation World) {A} (m : M A) : Prop :=
  ∀ w, R w (m w).2.

(** The business context is the same. *)
Definition same_context : relation World :=
  λ w w', userContext (ui w') = userContext (ui w).

(** Timer handles are handed out in increasing order, and the interval
    [h], once cleared, is not live again. *)
Definition stays_cleared (h : nat) : relation World :=
  λ w w', (nextTimer w ≤ nextTimer w')%nat
          ∧ ((h < nextTimer w)%nat → intervals w !! h = None →
             intervals w' !! h = None).

(** Every live interval, and every interval that a pending timeout is
    going to clear, was handed out by [setInterval]. *)
Definition handles_allocated (w : World) : Prop :=
  (∀ h b, intervals w !! h = Some b → (h < nextTimer w)%nat)
  ∧ (∀ t h c, timeouts w !! t = Some (h, c) → (h < nextTimer w)%nat).

(** The snapshot that a status poll gets to read, if any: the request
    went through, the response was ok and its body parsed. *)
Definition snapshot_of (o : Outcome StatusSnapshot) : option StatusSnapshot :=
  match o with
  | Resolves (Ok200 (Value snap)) => Some snap
  | _ => None
  end.

(** [e] is the first entry of [ds] for the file name [nm]. *)
Definition first_listed (ds : list StatusDoc) (nm : string) (e : StatusDoc) : Prop :=
  ∃ pre post, ds = (pre ++ e :: post)%list
              ∧ s_filename e = nm
              ∧ ∀ x, x ∈ pre → s_filename x ≠ nm.

(** No entry of the snapshot has the file name [nm]. *)
Definition not_listed (snap : StatusSnapshot) (nm : string) : Prop :=
  ∀ ds e, s_documents snap = Some ds → e ∈ ds → s_filename e ≠ nm.

(** Some document of the snapshot is not yet completed or failed. *)
Definition some_non_terminal (snap : StatusSnapshot) : Prop :=
  ∃ ds e, s_documents snap = Some ds ∧ e ∈ ds
          ∧ is_terminal (s_status e) = false.

(** Every document of the snapshot is completed or failed. *)
Definition all_terminal (snap : StatusSnapshot) : Prop :=
  ∃ ds, s_documents snap = Some ds
        ∧ ∀ e, e ∈ ds → is_terminal (s_status e) = true.

(** The events that leave the document [d] alone: adding documents,
    editing the prompt or the context, a click on a disabled Analyze
    button, the polling timeout, and an interval callback that is
    cleared, whose poll fails, or whose snapshot does not list the file
    of [d]. *)
Definition leaves_alone (w : World) (e : Event) (d : DocumentFile) : Prop :=
  match e with
  | Drop _ _ | SelectPrompt _ | EditCustomPrompt _ | EditUserContext _
  | TimeoutFires _ => True
  | ClickAnalyze _ => analyzeDisabled (ui w) = true
  | IntervalFires h srv =>
      match intervals w !! h with
      | None => True
      | Some b =>
          match snapshot_of (batch_status srv b) with
          | None => True
          | Some snap => not_listed snap (name (file d))
          end
      end
  | Remove _ | ClearAll => False
  end.

(** [P] survives: if it holds before, it holds after. *)
Definition preserves (P : World → Prop) : relation World :=
  λ w w', P w → P w'.



(** *** The claims that the code does not meet, as they are worded *)

(** "pollBatchStatus returns true exactly when some document is
    non-terminal and the status request succeeded." *)
Definition true_iff_some_non_terminal (srv : Server) (b : string) (w : World) : Prop :=
  (pollBatchStatus srv b w).1 = Returned true
  ↔ ∃ snap, snapshot_of (batch_status srv b) = Some snap
            ∧ some_non_terminal snap.

(** "For every document whose status is completed or failed, no
    subsequent operation changes its status, analysis, error, or
    progress fields." *)
Definition terminal_immutable (w : World) (e : Event) : Prop :=
  ∀ i d, documents (ui w) !! i = Some d →
         is_terminal (status d) = true →
         ∃ d', documents (ui (step w e)) !! i = Some d'
               ∧ status d' = status d ∧ analysis d' = analysis d
               ∧ error d' = error d ∧ progress d' = progress d.

(** "When the budget expires, every document that is still in a
    non-terminal state is marked failed with reason timeout, and
    processing is reported as stopped." *)
Definition timeout_fails_unfinished (w : World) (t : nat) : Prop :=
  let w' := step w (TimeoutFires t) in
  isProcessing (ui w') = false
  ∧ ∀ i d, documents (ui w) !! i = Some d →
           is_terminal (status d) = false →
           ∃ d', documents (ui w') !! i = Some d'
                 ∧ status d' = "failed" ∧ error d' = Some "timeout".

(** "The generated report content is a deterministic function of the
    batch result alone": whatever the day of the run. *)
Definition report_of_result_alone (s : State) : Prop :=
  ∀ localeDate1 iso1 localeDate2 iso2,
    snd <$> downloadBatchReport localeDate1 iso1 s
    = snd <$> downloadBatchReport localeDate2 iso2 s.

(** *** Sample inputs *)

Definition pdf (n : string) : File := mkFile n 1024.

Definition ten_files : list File :=
  [pdf "c01.pdf"; pdf "c02.pdf"; pdf "c03.pdf"; pdf "c04.pdf"; pdf "c05.pdf";
   pdf "c06.pdf"; pdf "c07.pdf"; pdf "c08.pdf"; pdf "c09.pdf"; pdf "c10.pdf"].

Definition sampleResult (b : option string) : BatchResult :=
  mkBatchResult b 1 1 0 "unified" (Some "1. No material risk found.") None None.

(** A back end that accepts the batch and tracks it as [b1]; its status
    endpoint answers with [status]. *)
Definition trackingServer (status : Outcome StatusSnapshot) : Server :=
  mkServer (λ _ _, Resolves (Ok200 (Value (sampleResult (Some "b1")))))
           (λ _, status)
           (λ _, Resolves (Ok200 (Value (sampleResult (Some "b1"))))).

(** A back end of the older kind: the analysis comes back with the
    answer to the upload, without batch id. *)
Definition directServer : Server :=
  mkServer (λ _ _, Resolves (Ok200 (Value (sampleResult None))))
           (λ _, Rejects "Failed to fetch")
           (λ _, Rejects "Failed to fetch").

Definition offline : Outcome StatusSnapshot := Rejects "Failed to fetch".

(** One document under analysis, tracked as batch [b1]: interval 0
    polls it, timeout 1 is pending. *)
Definition trackedWorld : World :=
  run initialWorld [Drop 5 [pdf "contract.pdf"]; ClickAnalyze (trackingServer offline)].

Definition trackedDocument : DocumentFile :=
  mkDocumentFile "doc_5_0" (pdf "contract.pdf") "analyzing" None None 30.

(** One document analysed to the end by the older back end. *)
Definition finishedWorld : World :=
  run initialWorld [Drop 5 [pdf "contract.pdf"]; ClickAnalyze directServer].

Definition finishedDocument : DocumentFile :=
  mkDocumentFile "doc_5_0" (pdf "contract.pdf") "completed"
                 (Some "See unified analysis below") None 100.

(** A status answer without the [documents] field. *)
Definition noList : Outcome StatusSnapshot :=
  Resolves (Ok200 (Value (mkStatusSnapshot None))).

(** A status answer that lists the contract twice and another file. *)
Definition listing : Outcome StatusSnapshot :=
  Resolves (Ok200 (Value (mkStatusSnapshot (Some [
    mkStatusDoc "other.pdf" "completed" (Some 100);
    mkStatusDoc "contract.pdf" "analyzing" (Some 0);
    mkStatusDoc "contract.pdf" "failed" (Some 100)])))).

Definition sampleReportState : State :=
  mkState [] "red-flags-review" "" "" false (Some (sampleResult (Some "b1"))) None.

(** All chunks done and the cross-reference agent completed; the
    combination agent has not reported yet. *)
Definition sampleMonitor : AgentMonitor.Monitor :=
  AgentMonitor.mkMonitor
    {[ "Document Parser" := "completed";
       "Document Chunking Agent" := "completed";
       "Cross-Reference Agent" := "completed" ]}
    (AgentMonitor.mkParallel false 3 3 100).

(** Every agent reports completed while one chunk of four is still
    open. *)
Definition hastyMonitor : AgentMonitor.Monitor :=
  AgentMonitor.mkMonitor
    {[ "Document Parser" := "completed";
       "Document Chunking Agent" := "completed";
       "Cross-Reference Agent" := "completed";
       "Results Combination Agent" := "completed";
       "Report Generator" := "completed" ]}
    (AgentMonitor.mkParallel true 4 3 75).

(** An analysis of two numbered findings, the minor one first. *)
Definition sampleAnalysis : string :=
  "1. Minor formatting note" +:+ nl +:+ "2. Critical liability exposure".

(** *** Text with something to read *)

(** Some character of [s] is not white space. *)
Fixpoint has_ink (s : string) : bool :=
  match s with
  | EmptyString => false
  | String c s' => negb (Js.is_space c) || has_ink s'
  end.

End Vocabulary.

(** ** Further vocabulary for the upload component *)

Module MoreVocabulary.
Import Net MultiDocumentUpload Vocabulary.

(** The message with which an analysis request fails, if it does: the
    rejection of [fetch], the [error] of the error body or, without one,
    the status text, or the rejection of [json()]. *)
Definition submit_error (o : Outcome BatchResult) : option string :=
  match o with
  | Rejects msg => Some msg
  | Resolves (NotOk _ (SyntaxError msg)) => Some msg
  | Resolves (NotOk statusText (Value errorData)) =>
      Some (Js.or_else errorData ("Failed to analyze documents: " +:+ statusText))
  | Resolves (Ok200 (SyntaxError msg)) => Some msg
  | Resolves (Ok200 (Value _)) => None
  end.

(** The answer of the results endpoint, when it is ok and parses. *)
Definition results_of (o : Outcome BatchResult) : option BatchResult :=
  match o with
  | Resolves (Ok200 (Value r)) => Some r
  | _ => None
  end.

(** A request that is part of polling, not a new analysis. *)
Definition is_poll_request (req : Request) : Prop :=
  match req with
  | PostAnalyzeMultiple _ _ => False
  | GetBatchStatus _ | GetBatchResults _ => True
  end.

(** From [w] to [w'] only polling requests were sent. *)
Definition only_polls : relation World :=
  λ w w', ∃ reqs, sent w' = (sent w ++ reqs)%list ∧ Forall is_poll_request reqs.

(** No pending timeout holds a true [isProcessing]. *)
Definition captured_idle (w : World) : Prop :=
  ∀ t h c, timeouts w !! t = Some (h, c) → c = false.


(** What [onDrop] makes of a file: a pending document without progress,
    analysis or error. *)
Definition fresh_document (d : DocumentFile) : Prop :=
  status d = "pending" ∧ progress d = 0 ∧ analysis d = None ∧ error d = None.

(** *** Sample inputs *)

(** A back end that refuses the batch. *)
Definition refusingServer : Server :=
  mkServer (λ _ _, Resolves (NotOk "Bad Request"
              (Value (Some "Maximum 10 documents allowed per batch"))))
           (λ _, Rejects "Failed to fetch")
           (λ _, Rejects "Failed to fetch").

(** A status answer in which every document is done. *)
Definition allDone : Outcome StatusSnapshot :=
  Resolves (Ok200 (Value (mkStatusSnapshot (Some [
    mkStatusDoc "contract.pdf" "completed" (Some 100)])))).


Definition customState (prompt context : string) : State :=
  mkState [mkDocumentFile "doc_5_0" (pdf "contract.pdf") "pending" None None 0]
          "custom" prompt context false None None.

End MoreVocabulary.

(** ** Cleaning a text for display *)

(** [cleanTextForDisplay], which the single-document form
    (components/DocumentUpload.tsx) and the document tabs
    (components/AnalysisResults.tsx) both define, with the same body. *)
Module DisplayText.

Definition between (lo hi : nat) (c : ascii) : bool :=
  let n := nat_of_ascii c in ((lo <=? n) && (n <=? hi))%nat.

(** [[A-Z]], [[a-z]] and [\w] *)
Definition is_upper (c : ascii) : bool := between 65 90 c.
Definition is_lower (c : ascii) : bool := between 97 122 c.
Definition is_word (c : ascii) : bool :=
  is_upper c || is_lower c || Js.is_digit c || Ascii.eqb c "_".

(** The number of characters at the head of [s] that are of the class
    [cls]: what a greedy [+] or [{n,}] takes. *)
Fixpoint leading (cls : ascii → bool) (s : string) : nat :=
  match s with
  | String c s' => if cls c then S (leading cls s') else O
  | EmptyString => O
  end.

Fixpoint drop (n : nat) (s : string) : string :=
  match n, s with
  | S n', String _ s' => drop n' s'
  | _, _ => s
  end.

(** [\s+([a-z])] at the head of [s]: the letter and the length of the
    match.  The white space must end where the letter stands, so giving
    back characters of the greedy [\s+] cannot help. *)
Definition spaced_letter (s : string) : option (ascii * nat) :=
  let n := leading Js.is_space s in
  if (0 <? n)%nat then
    match String.get n s with
    | Some c => if is_lower c then Some (c, S n) else None
    | None => None
    end
  else None.

(** [([A-Z])\s+([a-z])\s+([a-z])] at the head of [s]: the replacement
    [$1$2$3] and the length of the match. *)
Definition spaced_word (s : string) : option (string * nat) :=
  match s with
  | String x s1 =>
      if is_upper x then
        match spaced_letter s1 with
        | Some (y, n1) =>
            match spaced_letter (drop n1 s1) with
            | Some (z, n2) =>
                Some (String x (String y (String z EmptyString)), S (n1 + n2))
            | None => None
            end
        | None => None
        end
      else None
  | EmptyString => None
  end.

(** [text.replace(/\b([A-Z])\s+([a-z])\s+([a-z])/g, '$1$2$3')], from
    the left; [before] is the character in front of [s], [skip] the
    number of characters of the last match still to pass.  In front of
    a capital, [\b] holds when no word character comes before it. *)
Fixpoint joinSpacedLetters (skip : nat) (before : option ascii) (s : string) : string :=
  match s with
  | EmptyString => EmptyString
  | String c s' =>
      match skip with
      | S k => joinSpacedLetters k (Some c) s'
      | O =>
          let boundary := negb (from_option is_word false before) in
          match (if boundary then spaced_word s else None) with
          | Some (letters, n) =>
              letters +:+ joinSpacedLetters (n - 1) (Some c) s'
          | None => String c (joinSpacedLetters O (Some c) s')
          end
      end
  end.

(** [text.replace(/C{least,}/g, by)] for a character class [C], from
    the left: a run of at least [least] characters of the class is
    replaced as a whole, a shorter one stays. *)
Fixpoint replaceRuns (cls : ascii → bool) (least : nat) (by_ : string)
    (skip : nat) (s : string) : string :=
  match s with
  | EmptyString => EmptyString
  | String c s' =>
      match skip with
      | S k => replaceRuns cls least by_ k s'
      | O =>
          if (least <=? leading cls s)%nat
          then by_ +:+ replaceRuns cls least by_ (leading cls s - 1) s'
          else String c (replaceRuns cls least by_ O s')
      end
  end.

Definition lineFeed : string := String "010"%char EmptyString.

(** The first two passes: [cleaned] before the last [replace]. *)
Definition squeezed (text : string) : string :=
  replaceRuns Js.is_space 3 "  " 0 (joinSpacedLetters 0 None text).

Definition cleanTextForDisplay (text : string) : string :=
  if negb (Js.truthy text) then EmptyString
  else
    let cleaned := text in
    let cleaned := joinSpacedLetters 0 None cleaned in
    let cleaned := replaceRuns Js.is_space 3 "  " 0 cleaned in
    let cleaned := replaceRuns (Ascii.eqb "010") 4
                     (lineFeed +:+ lineFeed +:+ lineFeed) 0 cleaned in
    cleaned.

(** At no place of [s] do [n] characters of the class [cls] stand in a
    row. *)
Fixpoint no_run (cls : ascii → bool) (n : nat) (s : string) : bool :=
  match s with
  | EmptyString => true
  | String _ s' => (leading cls s <? n)%nat && no_run cls n s'
  end.

End DisplayText.

(** ** Asynchronous handlers of the smaller components *)

(** The single-document form and the document tabs load the text of an
    uploaded file in the same way.  What they share is here: how a
    promise settles, handlers as functions of the state of their
    component, [try]/[catch]/[finally], files and responses. *)
Module Handler.

(** A promise that has settled; an [async] function returns one. *)
Inductive Settled (A : Type) : Type :=
| Fulfilled (a : A)
| Rejected (msg : string).
Arguments Fulfilled {A} a.
Arguments Rejected {A} msg.

Definition H (W A : Type) : Type := W → Settled A * W.

#[global] Instance H_ret {W : Type} : MRet (H W) := λ A a w, (Fulfilled a, w).

#[global] Instance H_bind {W : Type} : MBind (H W) := λ A B f m w,
  match m w with
  | (Fulfilled a, w') => f a w'
  | (Rejected msg, w') => (Rejected msg, w')
  end.

#[global] Instance H_throw {W : Type} : MThrow string (H W) :=
  λ A msg w, (Rejected msg, w).

(** [await p] *)
Definition await {W A} (p : Settled A) : H W A := λ w, (p, w).

(** [try { body } catch (err) { handler(err.message) }] *)
Definition try_catch {W A} (body : H W A) (handler : string → H W A) : H W A :=
  λ w, match body w with
       | (Fulfilled a, w') => (Fulfilled a, w')
       | (Rejected msg, w') => handler msg w'
       end.

(** [try { body } finally { last }]: [last] runs however [body] ends,
    and the end of [body] stands unless [last] throws. *)
Definition try_finally {W A} (body : H W A) (last : H W unit) : H W A :=
  λ w, match body w with
       | (ending, w') =>
           match last w' with
           | (Fulfilled _, w'') => (ending, w'')
           | (Rejected msg, w'') => (Rejected msg, w'')
           end
       end.

(** A [File]: its name, its MIME type, and how [file.text()] settles. *)
Record Upload := mkUpload {
  u_name : string;
  u_type : string;
  u_text : Settled string
}.

(** A response: [response.ok], [response.statusText], and how
    [response.json()] settles.  A body is read as a record whose
    missing fields are [None]. *)
Record Response (A : Type) := mkResponse {
  ok : bool;
  statusText : string;
  body : Settled A
}.
Arguments mkResponse {A} ok statusText body.
Arguments ok {A} r.
Arguments statusText {A} r.
Arguments body {A} r.

(** The body that the text extraction answers with. *)
Record ExtractResult := mkExtract {
  x_error : option string;
  x_text : option string
}.

Definition noText : string :=
  "No text content could be extracted from this document.".

(** The steps of [loadDocumentContent] that both components share, from
    the response of the extraction to the text to show:
    [if (!response.ok) throw ...; const result = await response.json();
     if (result.error) throw ...; result.text || '...'] *)
Definition extractedText {W} (response : Response ExtractResult) : H W string :=
  (if negb (ok response)
   then mthrow ("Failed to extract text: " +:+ statusText response)
   else mret tt) ;;
  result ← await (body response);
  (if Js.truthy_opt (x_error result)
   then mthrow (default "" (x_error result))
   else mret tt) ;;
  mret (Js.or_else (x_text result) noText).

End Handler.

(** ** The single-document form *)

Module DocumentUpload.
Import Handler DisplayText.

(** The body that the analysis answers with; [analysis] may be missing. *)
Record AnalyzeResult := mkAnalyze { a_analysis : option string }.

Inductive Request : Type :=
| PostExtractText (f : Upload)
| PostAnalyze (f : Upload) (prompt : string).

Record Server := mkServer {
  extract_text : Upload → Settled (Response ExtractResult);
  analyze : Upload → string → Settled (Response AnalyzeResult)
}.

(** The [useState] cells; [analysis] is [None] for [null] and for
    [undefined]. *)
Record State := mkState {
  file : option Upload;
  prompt : string;
  analysis : option string;
  loading : bool;
  documentContent : string;
  loadingDocument : bool
}.

(** The form and the requests it has sent, oldest first. *)
Record World := mkWorld { ui : State; sent : list Request }.

Definition get_ui : H World State := λ w, (Fulfilled (ui w), w).

Definition modify_ui (f : State → State) : H World unit :=
  λ w, (Fulfilled tt, mkWorld (f (ui w)) (sent w)).

Definition setFile (v : option Upload) : H World unit :=
  modify_ui (λ s, mkState v (prompt s) (analysis s) (loading s)
                    (documentContent s) (loadingDocument s)).

Definition setPrompt (v : string) : H World unit :=
  modify_ui (λ s, mkState (file s) v (analysis s) (loading s)
                    (documentContent s) (loadingDocument s)).

Definition setAnalysis (v : option string) : H World unit :=
  modify_ui (λ s, mkState (file s) (prompt s) v (loading s)
                    (documentContent s) (loadingDocument s)).

Definition setLoading (v : bool) : H World unit :=
  modify_ui (λ s, mkState (file s) (prompt s) (analysis s) v
                    (documentContent s) (loadingDocument s)).

Definition setDocumentContent (v : string) : H World unit :=
  modify_ui (λ s, mkState (file s) (prompt s) (analysis s) (loading s)
                    v (loadingDocument s)).

Definition setLoadingDocument (v : bool) : H World unit :=
  modify_ui (λ s, mkState (file s) (prompt s) (analysis s) (loading s)
                    (documentContent s) v).

(** [await fetch(req)] *)
Definition fetch {A} (req : Request) (o : Settled (Response A)) :
    H World (Response A) :=
  λ w, (o, mkWorld (ui w) (sent w ++ [req])).

(** [handleFileUpload]: [files] is [e.target.files]. *)
Definition handleFileUpload (files : list Upload) : H World unit :=
  match head files with
  | Some f => setFile (Some f) ;; setDocumentContent "" ;; setAnalysis None
  | None => mret tt
  end.

(** What is thrown in the [try] block is an [Error] (so is the
    [DOMException] of a failed read), and [catch] shows its message. *)
Definition loadDocumentContent (srv : Server) (uploadedFile : Upload) : H World unit :=
  setLoadingDocument true ;;
  try_finally
    (try_catch
       (if String.eqb (u_type uploadedFile) "text/plain" then
          text ← await (u_text uploadedFile);
          setDocumentContent (cleanTextForDisplay text)
        else
          response ← fetch (PostExtractText uploadedFile)
                           (extract_text srv uploadedFile);
          extracted ← extractedText response;
          setDocumentContent (cleanTextForDisplay extracted))
       (λ msg, setDocumentContent ("Error loading document: " +:+ msg)))
    (setLoadingDocument false).

Definition analysisFailed : string :=
  "Error occurred during analysis. Please try again.".

Definition handleSubmit (srv : Server) : H World unit :=
  s ← get_ui;
  match file s with
  | None => mret tt
  | Some f =>
      if negb (Js.truthy (prompt s)) then mret tt
      else
        setLoading true ;;
        setAnalysis None ;;
        loadDocumentContent srv f ;;
        try_finally
          (try_catch
             (response ← fetch (PostAnalyze f (prompt s))
                               (analyze srv f (prompt s));
              result ← await (body response);
              setAnalysis (a_analysis result))
             (λ _, setAnalysis (Some analysisFailed)))
          (setLoading false)
  end.

(** The requests of a submission: the extraction unless the file is
    plain text, then the analysis. *)
Definition requests_of (f : Upload) (p : string) : list Request :=
  (if String.eqb (u_type f) "text/plain" then [] else [PostExtractText f])
  ++ [PostAnalyze f p].

(** *** Sample inputs *)

Definition scannedLease : Upload :=
  mkUpload "lease.pdf" "application/pdf" (Rejected "not readable as text").

(** A back end that is down behind a proxy: no text, and an error body
    with status 502 for the analysis. *)
Definition brokenServer : Server :=
  mkServer (λ _, Rejected "Failed to fetch")
           (λ _ _, Fulfilled (mkResponse false "Bad Gateway"
                                (Fulfilled (mkAnalyze None)))).

Definition readyForm : World :=
  mkWorld (mkState (Some scannedLease) "Review this lease." None false "" false)
          [].

End DocumentUpload.

(** ** The document tabs *)

Module DocumentTabs.
Import Handler DisplayText.

(** The fields of a [DocumentFile] that the tabs read when they load
    its text. *)
Record TabDocument := mkTab { t_id : string; t_file : Upload }.

(** An entry of [documentContents]. *)
Record Content := mkContent {
  content : string;
  loading : bool;
  error : option string
}.

(** The [documentContents] cell, keyed by document id, and the files
    sent to the text extraction, oldest first. *)
Record World := mkWorld {
  documentContents : gmap string Content;
  sent : list Upload
}.

(** [setDocumentContents(prev => ({ ...prev, [id]: entry }))] *)
Definition setContent (i : string) (entry : Content) : H World unit :=
  λ w, (Fulfilled tt, mkWorld (<[i := entry]> (documentContents w)) (sent w)).

Definition fetch (f : Upload) (o : Settled (Response ExtractResult)) :
    H World (Response ExtractResult) :=
  λ w, (o, mkWorld (documentContents w) (sent w ++ [f])).

Definition get_contents : H World (gmap string Content) :=
  λ w, (Fulfilled (documentContents w), w).

(** The names that a plain object inherits from [Object.prototype]:
    under each of them a function is found or, under [__proto__], the
    prototype itself. *)
Definition inherited (key : string) : bool :=
  existsb (String.eqb key)
    ["constructor"; "hasOwnProperty"; "isPrototypeOf";
     "propertyIsEnumerable"; "toLocaleString"; "toString"; "valueOf";
     "__defineGetter__"; "__defineSetter__"; "__lookupGetter__";
     "__lookupSetter__"; "__proto__"].

(** [documentContents[key]] in a boolean position: [documentContents]
    is a plain object, so the test passes for an entry of its own, which
    is an object, and for an inherited property. *)
Definition truthy_at (documentContents : gmap string Content) (key : string) : bool :=
  match documentContents !! key with
  | Some _ => true
  | None => inherited key
  end.

(** [extract_text] is what the back end answers for a file. *)
Definition loadDocumentContent
    (extract_text : Upload → Settled (Response ExtractResult))
    (doc : TabDocument) : H World unit :=
  documentContents ← get_contents;
  if truthy_at documentContents (t_id doc) then mret tt
  else
    setContent (t_id doc) (mkContent "" true None) ;;
    try_catch
      (if String.eqb (u_type (t_file doc)) "text/plain" then
         text ← await (u_text (t_file doc));
         setContent (t_id doc)
                    (mkContent (cleanTextForDisplay text) false None)
       else
         response ← fetch (t_file doc) (extract_text (t_file doc));
         extracted ← extractedText response;
         setContent (t_id doc)
                    (mkContent (cleanTextForDisplay extracted) false None))
      (λ msg, setContent (t_id doc)
                (mkContent "" false
                   (Some ("Error loading document: " +:+ msg)))).

(** The effect that loads the active document: it runs again whenever
    the active id, the documents or [documentContents] change. *)
Definition onActive
    (extract_text : Upload → Settled (Response ExtractResult))
    (documents : list TabDocument) (activeDocumentId : option string) :
    H World unit :=
  match activeDocumentId with
  | Some i =>
      match List.find (λ doc, String.eqb (t_id doc) i) documents with
      | Some activeDoc => loadDocumentContent extract_text activeDoc
      | None => mret tt
      end
  | None => mret tt
  end.

(** *** Sample inputs *)

Definition lease : TabDocument :=
  mkTab "doc_5_0" (mkUpload "lease.pdf" "application/pdf"
                            (Rejected "not readable as text")).

Definition down : Upload → Settled (Response ExtractResult) :=
  λ _, Rejected "Failed to fetch".

(** A document whose id is the name of an inherited property. *)
Definition oddLease : TabDocument :=
  mkTab "constructor" (mkUpload "lease.pdf" "application/pdf"
                                (Rejected "not readable as text")).

Definition up : Upload → Settled (Response ExtractResult) :=
  λ _, Fulfilled (mkResponse true "OK"
                    (Fulfilled (mkExtract None (Some "LEASE AGREEMENT")))).

End DocumentTabs.

(** ** Document references in an analysis *)

(** [parseAnalysisWithReferences] of components/AnalysisResults.tsx.  The
    six regular expressions of its [patterns] array are a parameter: a
    pattern is taken as what [exec] makes of it. *)
Module AnalysisResults.

(** What [pattern.exec(content)] returns: [match.index], [match[0]] and
    [match[1]]. *)
Record Match := mkMatch {
  index : nat;
  whole : string;
  group1 : string
}.

(** A regular expression with the [g] flag, as [exec] uses it: the
    first match in a string that starts at [lastIndex] or later, if
    there is one.  After a match [exec] puts [lastIndex] behind it,
    without one it puts [lastIndex] back to 0. *)
Definition Pattern : Type := string → nat → option Match.

Inductive Part : Type :=
| Text (content : string)
| DocumentReference (content : string) (documentName : string).

Definition content (part : Part) : string :=
  match part with
  | Text c => c
  | DocumentReference c _ => c
  end.

(** [s.slice(from, to)] for [from <= to] *)
Definition slice (from to : nat) (s : string) : string :=
  substring from (to - from) s.

(** The [while] loop over the matches in one text part.  [turns]
    bounds the number of its turns; [lastIndex] is the local variable,
    which is also where [exec] goes on. *)
Fixpoint scan (pattern : Pattern) (content : string) (turns : nat)
    (lastIndex : nat) (newParts : list Part) : option (list Part) :=
  match turns with
  | O => None
  | S turns' =>
      match pattern content lastIndex with
      | Some m =>
          let newParts :=
            if (lastIndex <? index m)%nat
            then (newParts ++ [Text (slice lastIndex (index m) content)])%list
            else newParts in
          let newParts :=
            (newParts ++ [DocumentReference (whole m) (group1 m)])%list in
          scan pattern content turns' (index m + String.length (whole m))
               newParts
      | None =>
          Some (if (lastIndex <? String.length content)%nat
                then (newParts
                      ++ [Text (slice lastIndex (String.length content)
                                      content)])%list
                else newParts)
      end
  end.

(** [parts.forEach(part => ...)] for one pattern.  A match is not
    empty, so the loop over a text takes at most one turn per
    character, and one more to see that nothing is left. *)
Fixpoint forEachPart (pattern : Pattern) (parts : list Part)
    (newParts : list Part) : option (list Part) :=
  match parts with
  | [] => Some newParts
  | part :: rest =>
      match part with
      | DocumentReference _ _ =>
          forEachPart pattern rest (newParts ++ [part])%list
      | Text c =>
          newParts' ← scan pattern c (S (String.length c)) 0 newParts;
          forEachPart pattern rest newParts'
      end
  end.

(** [patterns.forEach(pattern => ...)] *)
Fixpoint forEachPattern (patterns : list Pattern) (parts : list Part) :
    option (list Part) :=
  match patterns with
  | [] => Some parts
  | pattern :: rest =>
      newParts ← forEachPart pattern parts [];
      forEachPattern rest newParts
  end.

Definition parseAnalysisWithReferences (patterns : list Pattern)
    (text : string) : option (list Part) :=
  if negb (Js.truthy text) then Some [Text text]
  else forEachPattern patterns [Text text].

(** *** Vocabulary *)

(** The contents of the parts, one after the other. *)
Definition joined (parts : list Part) : string :=
  foldr (λ part rest, content part +:+ rest) EmptyString parts.

(** What [exec] guarantees of a match, and what holds of each of the
    six patterns, none of which matches the empty string: the match
    starts at [lastIndex] or later, is not empty and is the piece of
    the string at its index. *)
Definition sound (pattern : Pattern) : Prop :=
  ∀ s lastIndex m, pattern s lastIndex = Some m →
    (lastIndex ≤ index m)%nat
    ∧ (0 < String.length (whole m))%nat
    ∧ (index m + String.length (whole m) ≤ String.length s)%nat
    ∧ substring (index m) (String.length (whole m)) s = whole m.

(** *** A sample pattern *)

(** The characters before the first [close] in [s], if there is one. *)
Fixpoint until (close : ascii) (s : string) : option string :=
  match s with
  | EmptyString => None
  | String c s' =>
      if Ascii.eqb c close then Some EmptyString
      else String c <$> until close s'
  end.

(** [\[Document:\s*([^\]]+)\]] with the [i] flag at the head of [s]:
    the match and its group.  The group takes what is left of the
    characters before the bracket when the greedy [\s*] has taken the
    white space in front, but at least the last of them. *)
Definition bracketed_at (s : string) : option (string * string) :=
  if String.eqb (Js.toLowerCase (substring 0 10 s)) "[document:" then
    match until "]" (DisplayText.drop 10 s) with
    | Some inner =>
        if Js.truthy inner then
          let spaces := Nat.min (DisplayText.leading Js.is_space inner)
                                (String.length inner - 1) in
          Some (substring 0 (10 + String.length inner + 1) s,
                DisplayText.drop spaces inner)
        else None
    | None => None
    end
  else None.

(** [exec] for a pattern given by its matches at the head of a string:
    the first place at [lastIndex] or later where it matches. *)
Fixpoint search (at_head : string → option (string * string))
    (position lastIndex : nat) (s : string) : option Match :=
  match (if (lastIndex <=? position)%nat then at_head s else None) with
  | Some (w, g) => Some (mkMatch position w g)
  | None =>
      match s with
      | EmptyString => None
      | String _ s' => search at_head (S position) lastIndex s'
      end
  end.

Definition bracketedDocument : Pattern :=
  λ s lastIndex, search bracketed_at 0 lastIndex s.

Definition sampleText : string :=
  "See [Document: lease.pdf] and [document:annex.docx].".

End AnalysisResults.

(** * Properties *)

(** ** Strings *)

Module JsFacts.

Lemma app_cons (c : ascii) (s t : string) :
  String c s +:+ t = String c (s +:+ t).
Proof. reflexivity. Qed.

Lemma length_app (s t : string) :
  String.length (s +:+ t) = (String.length s + String.length t)%nat.
Proof. induction s as [|c s IH]; simpl; [done|]. by rewrite IH. Qed.

Lemma length_slice0 (n : nat) (s : string) :
  (String.length (Js.slice0 n s) ≤ n)%nat.
Proof.
  unfold Js.slice0. revert s.
  induction n as [|n IH]; intros [|c s]; simpl; try lia.
  specialize (IH s). lia.
Qed.

Lemma slice0_short (n : nat) (s : string) :
  (String.length s ≤ n)%nat → Js.slice0 n s = s.
Proof.
  unfold Js.slice0. revert s.
  induction n as [|n IH]; intros [|c s] Hlen; simpl in *; try done; try lia.
  f_equal. apply IH. lia.
Qed.

Lemma slice0_is_prefix (n : nat) (s : string) :
  ∃ rest, s = Js.slice0 n s +:+ rest.
Proof.
  unfold Js.slice0. revert s.
  induction n as [|n IH]; intros [|c s]; simpl.
  - by exists "".
  - by exists (String c s).
  - by exists "".
  - destruct (IH s) as [rest Hrest]. exists rest.
    change (String c s = String c (substring 0 n s +:+ rest)).
    by rewrite <- Hrest.
Qed.

Lemma app_assoc (s t u : string) : (s +:+ t) +:+ u = s +:+ t +:+ u.
Proof. induction s as [|c s IH]; [done|]. by rewrite !app_cons, IH. Qed.

Lemma app_inv_tail (s1 s2 t : string) : s1 +:+ t = s2 +:+ t → s1 = s2.
Proof.
  revert s2. induction s1 as [|c s1 IH]; intros [|d s2] Heq.
  - done.
  - apply (f_equal String.length) in Heq.
    rewrite !length_app in Heq. simpl in Heq. lia.
  - apply (f_equal String.length) in Heq.
    rewrite !length_app in Heq. simpl in Heq. lia.
  - rewrite !app_cons in Heq. injection Heq as -> Heq. f_equal. by apply IH.
Qed.

Lemma app_inv_head (s t1 t2 : string) : s +:+ t1 = s +:+ t2 → t1 = t2.
Proof. apply (inj (String.app s)). Qed.

End JsFacts.

(** ** Handlers that leave a relation between worlds alone *)

Module Frame.
Import Net MultiDocumentUpload Vocabulary.

Section Respects.
Context (R : relation World) `{!PreOrder R}.

Lemma respects_ret {A} (a : A) : respects R (mret a).
Proof. intros w. reflexivity. Qed.

Lemma respects_throw {A} (msg : string) : respects R (mthrow msg : M A).
Proof. intros w. reflexivity. Qed.

Lemma respects_bind {A B} (m : M A) (f : A → M B) :
  respects R m → (∀ a, respects R (f a)) → respects R (m ≫= f).
Proof.
  intros Hm Hf w. unfold mbind, M_bind.
  specialize (Hm w). destruct (m w) as [[a|msg] w']; simpl in *; [|done].
  etrans; [exact Hm|apply Hf].
Qed.

Lemma respects_try_catch {A} (body : M A) (handler : string → M A) :
  respects R body → (∀ msg, respects R (handler msg)) →
  respects R (try_catch body handler).
Proof.
  intros Hb Hh w. unfold try_catch.
  specialize (Hb w). destruct (body w) as [[a|msg] w']; simpl in *; [done|].
  etrans; [exact Hb|apply Hh].
Qed.

Lemma respects_json {A} (p : Parsed A) : respects R (json p).
Proof. destruct p; [apply respects_throw|apply respects_ret]. Qed.

Lemma respects_get_ui : respects R get_ui.
Proof. intros w. reflexivity. Qed.

Lemma respects_liveInterval h : respects R (liveInterval h).
Proof. intros w. reflexivity. Qed.

(** The relation along a run, from each of its steps. *)
Lemma respects_run (ok : Event → Prop) :
  (∀ e, ok e → respects R (handler e)) →
  ∀ es w, Forall ok es → R w (run w es).
Proof.
  intros Hstep es. induction es as [|e es IH]; intros w Hall; simpl.
  - reflexivity.
  - inversion Hall as [|? ? He Hes]; subst.
    etrans; [apply (Hstep e He w)|]. by apply IH.
Qed.
End Respects.

(** Decompose a handler along binds, [try]/[catch] and case splits;
    [leaf] closes the primitive effects. *)
Ltac frame leaf :=
  repeat match goal with
    | |- PreOrder _ => apply _
    | |- respects _ _ =>
        first
          [ apply respects_ret
          | apply respects_throw
          | apply respects_json
          | apply respects_get_ui
          | apply respects_liveInterval
          | solve [leaf]
          | apply respects_bind; [| |intros ?]
          | apply respects_try_catch; [| |intros ?]
          | progress cbv zeta
          | case_match ]
    end.

End Frame.

(** ** The upload component *)

Module UploadFacts.
Import Net MultiDocumentUpload Vocabulary Frame.

(** *** The business context *)

#[local] Instance same_context_po : PreOrder same_context.
Proof.
  split; [by intros w|].
  intros w1 w2 w3 H12 H23. unfold same_context in *. congruence.
Qed.

Ltac leaf_context :=
  intros ?; unfold same_context, fetch; simpl; repeat case_match; reflexivity.

Lemma pollBatchStatus_keeps_context srv b :
  respects same_context (pollBatchStatus srv b).
Proof. unfold pollBatchStatus. frame ltac:(leaf_context). Qed.

Lemma handleSubmit_keeps_context srv :
  respects same_context (handleSubmit srv).
Proof. unfold handleSubmit. frame ltac:(leaf_context). Qed.

Lemma handler_keeps_context (e : Event) :
  (∀ value, e ≠ EditUserContext value) →
  respects same_context (handler e).
Proof.
  intros Hne. destruct e as [now fs|i| |i|v|v|srv|h srv|t]; simpl.
  - frame ltac:(leaf_context).
  - frame ltac:(leaf_context).
  - unfold clearAll. frame ltac:(leaf_context).
  - frame ltac:(leaf_context).
  - frame ltac:(leaf_context).
  - by destruct (Hne v).
  - unfold onAnalyzeClick.
    frame ltac:(apply handleSubmit_keeps_context || leaf_context).
  - unfold onInterval.
    frame ltac:(apply pollBatchStatus_keeps_context || leaf_context).
  - unfold onTimeout. frame ltac:(leaf_context).
Qed.

Lemma step_context_capped (w : World) (e : Event) :
  (String.length (userContext (ui w)) ≤ 500)%nat →
  (String.length (userContext (ui (step w e))) ≤ 500)%nat.
Proof.
  intros Hw.
  assert (Hother : (∀ value, e ≠ EditUserContext value) →
                   userContext (ui (step w e)) = userContext (ui w)).
  { intros Hne. apply (handler_keeps_context e Hne w). }
  destruct e; try (rewrite Hother; [exact Hw|done]).
  apply JsFacts.length_slice0.
Qed.

Lemma run_context_capped (es : list Event) (w : World) :
  (String.length (userContext (ui w)) ≤ 500)%nat →
  (String.length (userContext (ui (run w es))) ≤ 500)%nat.
Proof.
  revert w. induction es as [|e es IH]; intros w Hw; simpl; [done|].
  apply IH. by apply step_context_capped.
Qed.

(** C10.  After any sequence of user actions, timer callbacks and server
    answers, the stored business context has at most 500 characters,
    and the final prompt is the base prompt alone or the base prompt,
    the label and a context of at most 500 characters.  An edit stores
    the first 500 characters of the typed value: the value itself when
    it is that short, a proper cut otherwise; nothing is rejected. *)
Theorem C10_user_context_capped (es : list Event) :
  let w := run initialWorld es in
  (String.length (userContext (ui w)) ≤ 500)%nat
  ∧ (getFinalPrompt (ui w) = basePrompt (ui w)
     ∨ ∃ ctx, (String.length ctx ≤ 500)%nat
              ∧ getFinalPrompt (ui w) = basePrompt (ui w) +:+ contextLabel +:+ ctx)
  ∧ ∀ value,
      let stored := userContext (ui (step w (EditUserContext value))) in
      stored = Js.slice0 500 value
      ∧ (∃ rest, value = stored +:+ rest)
      ∧ ((String.length value ≤ 500)%nat → stored = value).
Proof.
  intros w.
  assert (Hcap : (String.length (userContext (ui w)) ≤ 500)%nat).
  { apply run_context_capped. simpl. lia. }
  split; [exact Hcap|]. split.
  - unfold getFinalPrompt. case_match; [right|by left].
    by exists (userContext (ui w)).
  - intros value. simpl. split; [done|]. split.
    + apply JsFacts.slice0_is_prefix.
    + apply JsFacts.slice0_short.
Qed.

(** *** One status poll *)

Ltac run_handler :=
  unfold pollBatchStatus, try_catch, fetch, json, setDocuments, setBatchResult,
    setIsProcessing, setCurrentBatchId, modify_ui, clearInterval,
    liveInterval, mbind, M_bind, mret, M_ret, mthrow, M_throw;
  simpl.

Lemma find_first_listed (ds : list StatusDoc) (nm : string) (e : StatusDoc) :
  first_listed ds nm e →
  List.find (λ d, String.eqb (s_filename d) nm) ds = Some e.
Proof.
  intros (pre & post & -> & Hname & Hpre).
  induction pre as [|x pre IH]; simpl.
  - by rewrite (proj2 (String.eqb_eq _ _) Hname).
  - rewrite (proj2 (String.eqb_neq _ _)); [|apply Hpre; left].
    apply IH. intros y Hy. apply Hpre. by right.
Qed.

Lemma find_not_listed (ds : list StatusDoc) (nm : string) :
  (∀ e, e ∈ ds → s_filename e ≠ nm) →
  List.find (λ d, String.eqb (s_filename d) nm) ds = None.
Proof.
  induction ds as [|x ds IH]; intros Hall; simpl; [done|].
  rewrite (proj2 (String.eqb_neq _ _)); [|apply Hall; left].
  apply IH. intros y Hy. apply Hall. by right.
Qed.

Lemma forallb_false_witness {A} (f : A → bool) (l : list A) :
  forallb f l = false ↔ ∃ x, x ∈ l ∧ f x = false.
Proof.
  induction l as [|a l IH]; simpl.
  - split; [done|]. intros (x & Hx & _). by apply elem_of_nil in Hx.
  - destruct (f a) eqn:Hfa; simpl.
    + rewrite IH. split.
      * intros (x & Hx & Hfx). exists x. split; [by right|done].
      * intros (x & Hx & Hfx). apply elem_of_cons in Hx as [->|Hx].
        -- congruence.
        -- by exists x.
    + split; [|done]. intros _. exists a. split; [left|done].
Qed.

Lemma forallb_true_all {A} (f : A → bool) (l : list A) :
  forallb f l = true ↔ ∀ x, x ∈ l → f x = true.
Proof.
  rewrite forallb_forall. split; intros H x Hx; apply H.
  - by apply list_elem_of_In.
  - by apply list_elem_of_In.
Qed.

(** What one poll returns, sends and does to the documents, from the
    snapshot it gets to read. *)
Lemma poll_returns (srv : Server) (b : string) (w : World) :
  (pollBatchStatus srv b w).1 =
  Returned (match snapshot_of (batch_status srv b) with
            | Some snap => not_bool (isComplete snap)
            | None => false
            end).
Proof.
  run_handler.
  destruct (batch_status srv b) as [msg|[[msg|snap]|st ed]]; simpl; try done.
  unfold not_bool.
  destruct (truthy_bool (isComplete snap)) eqn:Hc; simpl; [|done].
  by destruct (batch_results srv b) as [msg|[[msg|r]|st ed]].
Qed.

Lemma poll_sends (srv : Server) (b : string) (w : World) :
  sent (pollBatchStatus srv b w).2 =
  (sent w ++ GetBatchStatus b ::
     match snapshot_of (batch_status srv b) with
     | Some snap => if truthy_bool (isComplete snap) then [GetBatchResults b] else []
     | None => []
     end)%list.
Proof.
  run_handler.
  destruct (batch_status srv b) as [msg|[[msg|snap]|st ed]]; simpl; try done.
  destruct (truthy_bool (isComplete snap)) eqn:Hc; simpl; [|done].
  by destruct (batch_results srv b) as [msg|[[msg|r]|st ed]]; simpl;
    rewrite <- app_assoc.
Qed.

Lemma poll_documents (srv : Server) (b : string) (w : World) :
  documents (ui (pollBatchStatus srv b w).2) =
  match snapshot_of (batch_status srv b) with
  | Some snap => applyStatus snap <$> documents (ui w)
  | None => documents (ui w)
  end.
Proof.
  run_handler.
  destruct (batch_status srv b) as [msg|[[msg|snap]|st ed]]; simpl; try done.
  destruct (truthy_bool (isComplete snap)) eqn:Hc; simpl; [|done].
  by destruct (batch_results srv b) as [msg|[[msg|r]|st ed]].
Qed.

Lemma poll_timers (srv : Server) (b : string) (w : World) :
  intervals (pollBatchStatus srv b w).2 = intervals w
  ∧ timeouts (pollBatchStatus srv b w).2 = timeouts w
  ∧ nextTimer (pollBatchStatus srv b w).2 = nextTimer w.
Proof.
  run_handler.
  destruct (batch_status srv b) as [msg|[[msg|snap]|st ed]]; simpl; try done.
  destruct (truthy_bool (isComplete snap)) eqn:Hc; simpl; [|done].
  by destruct (batch_results srv b) as [msg|[[msg|r]|st ed]].
Qed.

Lemma truthy_complete_all_terminal (snap : StatusSnapshot) :
  truthy_bool (isComplete snap) = true ↔ all_terminal snap.
Proof.
  unfold isComplete, all_terminal, truthy_bool.
  destruct (s_documents snap) as [ds|]; simpl.
  - rewrite forallb_true_all. split.
    + intros H. by exists ds.
    + intros (ds' & [= <-] & H). exact H.
  - split; [done|]. by intros (ds & Hds & _).
Qed.

Lemma not_complete_cases (snap : StatusSnapshot) :
  not_bool (isComplete snap) = true
  ↔ s_documents snap = None ∨ some_non_terminal snap.
Proof.
  unfold isComplete, some_non_terminal, not_bool, truthy_bool.
  destruct (s_documents snap) as [ds|]; simpl.
  - rewrite negb_true_iff, forallb_false_witness. split.
    + intros (e & He & Hf). right. by exists ds, e.
    + intros [|(ds' & e & [= <-] & He & Hf)]; [done|]. by exists e.
  - split; [by left|done].
Qed.

(** C2, as the code has it.  One status poll always returns; it asks
    for the final results only when the snapshot it read lists its
    documents and every one of them is completed or failed; and it
    returns true exactly when the status request succeeded and the
    snapshot has no document list or lists a document that is not yet
    completed or failed. *)
Theorem C2_results_only_when_all_terminal (srv : Server) (b : string) (w : World) :
  let r := pollBatchStatus srv b w in
  (r.1 = Returned true ∨ r.1 = Returned false)
  ∧ (∃ reqs, sent r.2 = (sent w ++ reqs)%list
             ∧ ∀ b', GetBatchResults b' ∈ reqs →
                     ∃ snap, snapshot_of (batch_status srv b) = Some snap
                             ∧ all_terminal snap)
  ∧ (r.1 = Returned true
     ↔ ∃ snap, snapshot_of (batch_status srv b) = Some snap
               ∧ (s_documents snap = None ∨ some_non_terminal snap)).
Proof.
  intros r. subst r. rewrite poll_returns, poll_sends.
  destruct (snapshot_of (batch_status srv b)) as [snap|] eqn:Hsnap.
  - split; [destruct (not_bool (isComplete snap)); auto|]. split.
    + eexists. split; [reflexivity|]. intros b' Hin.
      exists snap. split; [done|].
      apply truthy_complete_all_terminal.
      destruct (truthy_bool (isComplete snap)); [done|].
      apply elem_of_cons in Hin as [[=]|Hin]. by apply elem_of_nil in Hin.
    + split.
      * intros [= Hnot]. exists snap. split; [done|].
        by apply not_complete_cases.
      * intros (snap' & [= <-] & Hcases).
        f_equal. by apply not_complete_cases.
  - split; [by right|]. split.
    + eexists. split; [reflexivity|]. intros b' Hin.
      apply elem_of_cons in Hin as [[=]|Hin]. by apply elem_of_nil in Hin.
    + split; [done|]. by intros (snap & [=] & _).
Qed.

(** C9.  A status poll keeps the place, the id, the file, the analysis
    and the error of every document.  A document whose file name is not
    in the snapshot, or any document when the poll fails, is left as it
    was.  A document that is listed takes the status of its first entry
    and that entry's progress, except that a missing or zero progress
    keeps the previous one. *)
Theorem C9_poll_frame (srv : Server) (b : string) (w : World)
    (i : nat) (d : DocumentFile) :
  documents (ui w) !! i = Some d →
  ∃ d', documents (ui (pollBatchStatus srv b w).2) !! i = Some d'
    ∧ id d' = id d ∧ file d' = file d
    ∧ analysis d' = analysis d ∧ error d' = error d
    ∧ (snapshot_of (batch_status srv b) = None → d' = d)
    ∧ (∀ snap, snapshot_of (batch_status srv b) = Some snap →
         not_listed snap (name (file d)) → d' = d)
    ∧ (∀ snap ds e, snapshot_of (batch_status srv b) = Some snap →
         s_documents snap = Some ds →
         first_listed ds (name (file d)) e →
         status d' = s_status e
         ∧ progress d' = match s_progress e with
                         | Some p => if p =? 0 then progress d else p
                         | None => progress d
                         end).
Proof.
  intros Hi. rewrite poll_documents.
  destruct (snapshot_of (batch_status srv b)) as [snap|] eqn:Hsnap.
  - exists (applyStatus snap d). rewrite list_lookup_fmap, Hi. simpl.
    split; [done|]. unfold applyStatus, findStatusDoc.
    destruct (s_documents snap) as [ds|] eqn:Hds; simpl.
    + destruct (List.find _ ds) as [e0|] eqn:Hfind; simpl.
      * repeat (split; [done|]). split.
        -- intros _ [= <-] Hnot.
           rewrite find_not_listed in Hfind; [done|].
           intros e He. by apply (Hnot ds).
        -- intros snap' ds' e [= <-] Hds' Hfirst.
           rewrite Hds in Hds'. injection Hds' as <-.
           rewrite (find_first_listed _ _ _ Hfirst) in Hfind.
           by injection Hfind as <-.
      * repeat (split; [done|]).
        intros snap' ds' e [= <-] Hds' Hfirst.
        rewrite Hds in Hds'. injection Hds' as <-.
        by rewrite (find_first_listed _ _ _ Hfirst) in Hfind.
    + repeat (split; [done|]).
      intros snap' ds' e [= <-] Hds'. by rewrite Hds in Hds'.
  - exists d. repeat (split; [done|]). by intros.
Qed.

(** *** Timers *)

#[local] Instance stays_cleared_po h : PreOrder (stays_cleared h).
Proof.
  split.
  - intros w. split; [lia|done].
  - intros w1 w2 w3 [Hle12 H12] [Hle23 H23]. split; [lia|].
    intros Hlt Hnone. apply H23; [lia|]. by apply H12.
Qed.

#[local] Instance preserves_po P : PreOrder (preserves P).
Proof.
  split; [intros w Hw; exact Hw|].
  intros w1 w2 w3 H12 H23 H1. apply H23, H12, H1.
Qed.

Ltac leaf_cleared :=
  intros ?;
  unfold stays_cleared, fetch, setInterval, setTimeout, clearInterval,
    takeTimeout, setDocuments, setBatchResult, setIsProcessing,
    setCurrentBatchId, modify_ui;
  simpl; repeat case_match; simpl;
  (split; [lia|]); intros ? ?;
  first [ assumption
        | rewrite lookup_insert_ne by lia; assumption
        | apply lookup_delete_None; by right ].

Lemma pollBatchStatus_stays_cleared h srv b :
  respects (stays_cleared h) (pollBatchStatus srv b).
Proof. unfold pollBatchStatus. frame ltac:(leaf_cleared). Qed.

Lemma handleSubmit_stays_cleared h srv :
  respects (stays_cleared h) (handleSubmit srv).
Proof. unfold handleSubmit. frame ltac:(leaf_cleared). Qed.

Lemma handler_stays_cleared h (e : Event) :
  respects (stays_cleared h) (handler e).
Proof.
  destruct e; simpl;
    unfold onDrop, removeDocument, clearAll, onAnalyzeClick, onInterval, onTimeout;
    frame ltac:(first [ apply handleSubmit_stays_cleared
                      | apply pollBatchStatus_stays_cleared
                      | leaf_cleared ]).
Qed.

(** A handle found in a timer table after an insertion or a deletion is
    the inserted one or was there before. *)
Ltac allocated Hi Ht :=
  intros;
  repeat match goal with
    | H : <[_:=_]> _ !! _ = Some _ |- _ =>
        apply lookup_insert_Some in H as [[? H]|[? H]]
    | H : delete _ _ !! _ = Some _ |- _ =>
        apply lookup_delete_Some in H as [? H]
    | H : (_, _) = (_, _) |- _ => injection H as ? ?
    end;
  subst; try lia;
  match goal with
  | H : intervals _ !! _ = Some _ |- _ => pose proof (Hi _ _ H); lia
  | H : timeouts _ !! _ = Some _ |- _ => pose proof (Ht _ _ _ H); lia
  end.

(** The primitive effects, and [setInterval] together with the
    [setTimeout] that takes its handle. *)
Ltac leaf_allocated :=
  intros ?;
  unfold preserves, handles_allocated, fetch, setInterval, setTimeout,
    clearInterval, takeTimeout, setDocuments, setBatchResult,
    setIsProcessing, setCurrentBatchId, modify_ui, mbind, M_bind, mret, M_ret;
  simpl; repeat case_match; simpl;
  intros [Hi Ht]; split; allocated Hi Ht.

Lemma pollBatchStatus_allocated srv b :
  respects (preserves handles_allocated) (pollBatchStatus srv b).
Proof. unfold pollBatchStatus. frame ltac:(leaf_allocated). Qed.

Lemma handleSubmit_allocated srv :
  respects (preserves handles_allocated) (handleSubmit srv).
Proof. unfold handleSubmit. frame ltac:(leaf_allocated). Qed.

Lemma handler_allocated (e : Event) :
  respects (preserves handles_allocated) (handler e).
Proof.
  destruct e; simpl;
    unfold onDrop, removeDocument, clearAll, onAnalyzeClick, onInterval, onTimeout;
    frame ltac:(first [ apply handleSubmit_allocated
                      | apply pollBatchStatus_allocated
                      | leaf_allocated ]).
Qed.

Lemma reachable_allocated (es : list Event) :
  handles_allocated (run initialWorld es).
Proof.
  apply (respects_run (preserves handles_allocated) (λ _, True)).
  - intros e _. apply handler_allocated.
  - by apply Forall_forall.
  - split.
    + intros h b Hlook. simpl in Hlook. by rewrite lookup_empty in Hlook.
    + intros t h c Hlook. simpl in Hlook. by rewrite lookup_empty in Hlook.
Qed.

(** A cleared interval: its callback does nothing. *)
Lemma cleared_interval_idle (w : World) (h : nat) (srv : Server) :
  intervals w !! h = None → step w (IntervalFires h srv) = w.
Proof.
  intros Hnone. unfold step, handler, onInterval, liveInterval, mbind, M_bind.
  by rewrite Hnone.
Qed.

(** A live interval: one poll, and the interval is cleared unless the
    poll says to go on. *)
Lemma live_interval_step (w : World) (h : nat) (srv : Server) (b : string) :
  intervals w !! h = Some b →
  step w (IntervalFires h srv) =
  let w1 := (pollBatchStatus srv b w).2 in
  if match snapshot_of (batch_status srv b) with
     | Some snap => not_bool (isComplete snap)
     | None => false
     end
  then w1 else (clearInterval h w1).2.
Proof.
  intros Hlive. pose proof (poll_returns srv b w) as Hret.
  unfold step, handler, onInterval, liveInterval, try_catch, mbind, M_bind.
  rewrite Hlive.
  destruct (pollBatchStatus srv b w) as [[v|msg] w1]; simpl in *; [|done].
  injection Hret as <-. by destruct v.
Qed.

(** An interval that was handed out and is cleared stays cleared, and
    its callback does nothing, whatever happens next. *)
Lemma cleared_forever (w : World) (h : nat) (es : list Event) (srv : Server) :
  (h < nextTimer w)%nat →
  intervals w !! h = None →
  intervals (run w es) !! h = None
  ∧ step (run w es) (IntervalFires h srv) = run w es.
Proof.
  intros Hlt Hcleared.
  assert (Hstill : intervals (run w es) !! h = None).
  { assert (Hrel : stays_cleared h w (run w es)).
    { apply (respects_run (stays_cleared h) (λ _, True)).
      - intros e _. apply handler_stays_cleared.
      - by apply Forall_forall. }
    destruct Hrel as [_ Hrel]. by apply Hrel. }
  split; [exact Hstill|]. by apply cleared_interval_idle.
Qed.

(** *** After the end of a polling interval *)





(** C5, as the code has it.  In any state the component can reach, when
    the timer of 300000 ms set by [handleSubmit] fires, the polling
    interval of that submission is cleared and stays cleared: whatever
    happens afterwards, its callback sends nothing and changes nothing.
    The timer itself sends nothing and marks no document: every document
    keeps its status, error, analysis and progress. *)
Theorem C5_timeout_only_stops_polling (es0 : list Event) (t h : nat) (c : bool) :
  let w := run initialWorld es0 in
  timeouts w !! t = Some (h, c) →
  let w' := step w (TimeoutFires t) in
  documents (ui w') = documents (ui w)
  ∧ sent w' = sent w
  ∧ timeouts w' !! t = None
  ∧ intervals w' !! h = None
  ∧ ∀ es srv, let w'' := run w' es in
      intervals w'' !! h = None ∧ step w'' (IntervalFires h srv) = w''.
Proof.
  intros w Hpending w'.
  assert (Hw' : intervals w' !! h = None
                ∧ documents (ui w') = documents (ui w)
                ∧ sent w' = sent w ∧ timeouts w' !! t = None
                ∧ nextTimer w' = nextTimer w).
  { subst w'. unfold step, handler, onTimeout, takeTimeout, mbind, M_bind.
    rewrite Hpending. destruct c; simpl.
    - split; [apply lookup_delete_None; by left|].
      repeat split. apply lookup_delete_None. by left.
    - split; [apply lookup_delete_None; by left|].
      repeat split. apply lookup_delete_None. by left. }
  destruct Hw' as (Hint & Hdocs & Hsent & Htime & Hnext).
  repeat (split; [done|]).
  intros es srv w''. apply cleared_forever; [|done].
  rewrite Hnext. by apply (proj2 (reachable_allocated es0) t h c).
Qed.

(** *** Submission *)

Ltac run_submit :=
  unfold step, handler, onAnalyzeClick, handleSubmit, try_catch, fetch, json,
    get_ui, setDocuments, setBatchResult, setIsProcessing, setCurrentBatchId,
    setInterval, setTimeout, modify_ui, mbind, M_bind, mret, M_ret,
    mthrow, M_throw.

Lemma enabled_guard (s : State) :
  analyzeDisabled s = false →
  (length (documents s) =? 0)%nat
    || negb (Js.truthy (Js.trim (getFinalPrompt s))) = false.
Proof.
  unfold analyzeDisabled. intros H.
  apply orb_false_elim in H as [H1 H2].
  apply orb_false_elim in H1 as [_ H1]. by rewrite H1, H2.
Qed.

(** A click on the disabled button does nothing. *)
Lemma disabled_click_idle (w : World) (srv : Server) :
  analyzeDisabled (ui w) = true → step w (ClickAnalyze srv) = w.
Proof. intros Hdis. run_submit. by rewrite Hdis. Qed.

(** An accepted click sends one request: all the documents of the list
    and the final prompt, however many documents there are. *)
Lemma accepted_click_sends (w : World) (srv : Server) :
  analyzeDisabled (ui w) = false →
  sent (step w (ClickAnalyze srv)) =
  (sent w ++ [PostAnalyzeMultiple (file <$> documents (ui w))
                                  (getFinalPrompt (ui w))])%list.
Proof.
  intros Hen. run_submit. rewrite Hen. simpl. rewrite (enabled_guard _ Hen). simpl.
  destruct (analyze_multiple srv _ _) as [msg|[[msg|r]|st [msg|ed]]]; simpl;
    try done.
  destruct (Js.truthy_opt (batch_id r)); simpl; [done|].
  by destruct (if String.eqb (analysis_type r) "individual"
               then results r else None).
Qed.

Lemma markAll_twice st1 pr1 st2 pr2 (ds : list DocumentFile) :
  map (markAll st2 pr2) (map (markAll st1 pr1) ds) = map (markAll st2 pr2) ds.
Proof. rewrite map_map. by apply map_ext. Qed.

(** An accepted click that the back end answers with a batch id leaves
    every document under analysis at 30 per cent. *)
Lemma accepted_click_restarts (w : World) (srv : Server) (r : BatchResult) :
  analyzeDisabled (ui w) = false →
  analyze_multiple srv (file <$> documents (ui w)) (getFinalPrompt (ui w))
    = Resolves (Ok200 (Value r)) →
  Js.truthy_opt (batch_id r) = true →
  documents (ui (step w (ClickAnalyze srv)))
  = markAll "analyzing" 30 <$> documents (ui w).
Proof.
  intros Hen Hanswer Hid. run_submit. rewrite Hen. simpl.
  rewrite (enabled_guard _ Hen). simpl.
  rewrite Hanswer. simpl. rewrite Hid. simpl.
  apply markAll_twice.
Qed.

Lemma timeout_keeps_documents (w : World) (t : nat) :
  documents (ui (step w (TimeoutFires t))) = documents (ui w).
Proof.
  unfold step, handler, onTimeout, takeTimeout, mbind, M_bind.
  by destruct (timeouts w !! t) as [[h [|]]|].
Qed.

Lemma applyStatus_not_listed (snap : StatusSnapshot) (d : DocumentFile) :
  not_listed snap (name (file d)) → applyStatus snap d = d.
Proof.
  intros Hnot. unfold applyStatus, findStatusDoc.
  destruct (s_documents snap) as [ds|] eqn:Hds; simpl; [|done].
  rewrite find_not_listed; [done|]. intros e He. by apply (Hnot ds).
Qed.

Lemma interval_documents (w : World) (h : nat) (srv : Server) :
  documents (ui (step w (IntervalFires h srv))) =
  match intervals w !! h with
  | Some b => documents (ui (pollBatchStatus srv b w).2)
  | None => documents (ui w)
  end.
Proof.
  destruct (intervals w !! h) as [b|] eqn:Hlive.
  - rewrite (live_interval_step w h srv b Hlive). simpl. by case_match.
  - by rewrite cleared_interval_idle.
Qed.

(** C1, at the failing input.  Two drops of ten files and of one file,
    each within [maxFiles], leave eleven documents in the list; a click
    on Analyze then sends the analysis request with all eleven files,
    whatever the back end will answer. *)
Theorem C1_eleven_documents_are_sent (srv : Server) :
  let w := run initialWorld [Drop 1 ten_files; Drop 2 [pdf "c11.pdf"]] in
  (length ten_files ≤ maxFiles)%nat
  ∧ (length [pdf "c11.pdf"] ≤ maxFiles)%nat
  ∧ length (documents (ui w)) = 11%nat
  ∧ analyzeDisabled (ui w) = false
  ∧ sent (step w (ClickAnalyze srv))
    = [PostAnalyzeMultiple (ten_files ++ [pdf "c11.pdf"])%list
                           (getFinalPrompt (ui w))].
Proof.
  intros w.
  assert (Hen : analyzeDisabled (ui w) = false) by (by vm_compute).
  split; [unfold maxFiles; simpl; lia|].
  split; [unfold maxFiles; simpl; lia|].
  split; [done|]. split; [exact Hen|].
  by rewrite (accepted_click_sends w srv Hen).
Qed.

(** C4, as the code has it.  A document that is completed or failed is
    left as it was, in its place, by the events that leave it alone:
    adding documents, editing the prompt or the context, a click on the
    disabled Analyze button, the polling timeout, and a status poll that
    fails or does not list its file.  A new accepted submission restarts
    it with all the others: once the back end has answered with a batch
    id, it is under analysis at 30 per cent, with its id, file, analysis
    and error kept. *)
Theorem C4_terminal_document_frame (w : World) (e : Event)
    (i : nat) (d : DocumentFile) :
  documents (ui w) !! i = Some d →
  is_terminal (status d) = true →
  (leaves_alone w e d → documents (ui (step w e)) !! i = Some d)
  ∧ (∀ srv r,
       e = ClickAnalyze srv →
       analyzeDisabled (ui w) = false →
       analyze_multiple srv (file <$> documents (ui w)) (getFinalPrompt (ui w))
         = Resolves (Ok200 (Value r)) →
       Js.truthy_opt (batch_id r) = true →
       documents (ui (step w e)) !! i
       = Some (mkDocumentFile (id d) (file d) "analyzing"
                              (analysis d) (error d) 30)).
Proof.
  intros Hi Hterm. split.
  - intros Hquiet.
    destruct e as [now fs|j| |j|v|v|srv|h srv|t]; simpl in Hquiet; try done.
    + simpl. by apply lookup_app_l_Some.
    + by rewrite disabled_click_idle.
    + rewrite interval_documents.
      destruct (intervals w !! h) as [b|]; [|done].
      rewrite poll_documents.
      destruct (snapshot_of (batch_status srv b)) as [snap|]; [|done].
      rewrite list_lookup_fmap, Hi. simpl.
      by rewrite applyStatus_not_listed.
    + by rewrite timeout_keeps_documents.
  - intros srv r -> Hen Hanswer Hid.
    rewrite (accepted_click_restarts w srv r Hen Hanswer Hid).
    by rewrite list_lookup_fmap, Hi.
Qed.

(** *** The statements at concrete inputs *)

(** The poll frame on the tracked contract: the snapshot lists it with
    progress zero, so status and progress stay what they were. *)
Lemma C9_poll_frame_witness :
  documents (ui trackedWorld) !! 0%nat = Some trackedDocument
  ∧ ∃ d', documents (ui (pollBatchStatus (trackingServer listing) "b1"
                           trackedWorld).2) !! 0%nat = Some d'
          ∧ analysis d' = None ∧ error d' = None
          ∧ status d' = "analyzing" ∧ progress d' = 30.
Proof.
  split; [vm_compute; reflexivity|].
  destruct (C9_poll_frame (trackingServer listing) "b1" trackedWorld 0
              trackedDocument) as (d' & Hd' & _ & _ & Ha & He & _ & _ & Hlisted);
    [vm_compute; reflexivity|].
  exists d'. split; [exact Hd'|]. split; [exact Ha|]. split; [exact He|].
  apply (Hlisted _ _ (mkStatusDoc "contract.pdf" "analyzing" (Some 0))
           eq_refl eq_refl).
  exists [mkStatusDoc "other.pdf" "completed" (Some 100)],
         [mkStatusDoc "contract.pdf" "failed" (Some 100)].
  split; [reflexivity|]. split; [reflexivity|].
  intros x Hx. apply list_elem_of_singleton in Hx as ->. simpl. discriminate.
Defined.


(** The timeout of the tracked contract clears interval 0 and leaves the
    document as it is. *)
Lemma C5_timeout_witness :
  timeouts trackedWorld !! 1%nat = Some (0%nat, false)
  ∧ documents (ui (step trackedWorld (TimeoutFires 1))) = [trackedDocument]
  ∧ intervals (step trackedWorld (TimeoutFires 1)) !! 0%nat = None.
Proof.
  split; [vm_compute; reflexivity|].
  destruct (C5_timeout_only_stops_polling
              [Drop 5 [pdf "contract.pdf"]; ClickAnalyze (trackingServer offline)]
              1 0 false)
    as (Hdocs & _ & _ & Hcleared & _); [vm_compute; reflexivity|].
  split; [|exact Hcleared].
  unfold trackedWorld. rewrite Hdocs. vm_compute. reflexivity.
Defined.

(** After expiry the tracked contract is still under analysis, without
    error, and processing is still reported as running. *)
Lemma C5_counterexample :
  timeouts trackedWorld !! 1%nat = Some (0%nat, false)
  ∧ isProcessing (ui trackedWorld) = true
  ∧ ¬ timeout_fails_unfinished trackedWorld 1.
Proof.
  split; [vm_compute; reflexivity|]. split; [vm_compute; reflexivity|].
  intros [_ Hfailed].
  destruct (Hfailed 0%nat trackedDocument) as (d' & Hd' & Hst & _);
    [vm_compute; reflexivity|reflexivity|].
  vm_compute in Hd'. injection Hd' as <-. discriminate Hst.
Qed.

(** A completed contract, submitted again, is under analysis again. *)
Lemma C4_counterexample :
  documents (ui finishedWorld) !! 0%nat = Some finishedDocument
  ∧ is_terminal (status finishedDocument) = true
  ∧ analyzeDisabled (ui finishedWorld) = false
  ∧ ¬ terminal_immutable finishedWorld (ClickAnalyze (trackingServer offline)).
Proof.
  split; [vm_compute; reflexivity|]. split; [reflexivity|].
  split; [vm_compute; reflexivity|].
  intros Himm.
  destruct (Himm 0%nat finishedDocument) as (d' & Hd' & Hst & _);
    [vm_compute; reflexivity|reflexivity|].
  vm_compute in Hd'. injection Hd' as <-. discriminate Hst.
Qed.

Lemma C4_terminal_document_witness :
  documents (ui finishedWorld) !! 0%nat = Some finishedDocument
  ∧ is_terminal (status finishedDocument) = true
  ∧ documents (ui (step finishedWorld (Drop 9 [pdf "annex.pdf"]))) !! 0%nat
    = Some finishedDocument
  ∧ documents (ui (step finishedWorld (ClickAnalyze (trackingServer offline))))
      !! 0%nat
    = Some (mkDocumentFile "doc_5_0" (pdf "contract.pdf") "analyzing"
                           (Some "See unified analysis below") None 30).
Proof.
  split; [vm_compute; reflexivity|]. split; [reflexivity|]. split.
  - destruct (C4_terminal_document_frame finishedWorld
                (Drop 9 [pdf "annex.pdf"]) 0 finishedDocument) as [Hquiet _];
      [vm_compute; reflexivity|reflexivity|].
    apply Hquiet. exact I.
  - destruct (C4_terminal_document_frame finishedWorld
                (ClickAnalyze (trackingServer offline)) 0 finishedDocument)
      as [_ Hrestart]; [vm_compute; reflexivity|reflexivity|].
    apply (Hrestart (trackingServer offline) (sampleResult (Some "b1")));
      [reflexivity|vm_compute; reflexivity|reflexivity|reflexivity].
Defined.

(** A snapshot without document list: the poll says to go on, though no
    document of the snapshot is non-terminal. *)
Lemma C2_counterexample :
  (pollBatchStatus (trackingServer noList) "b1" trackedWorld).1 = Returned true
  ∧ ¬ true_iff_some_non_terminal (trackingServer noList) "b1" trackedWorld.
Proof.
  split; [vm_compute; reflexivity|].
  intros [Hto _].
  destruct Hto as (snap & Hsnap & ds & e & Hds & _); [vm_compute; reflexivity|].
  injection Hsnap as <-. discriminate Hds.
Qed.

(** The snapshot still lists the contract as analyzing: the poll says to
    go on, and asks for no results. *)
Lemma C2_poll_witness :
  (pollBatchStatus (trackingServer listing) "b1" trackedWorld).1 = Returned true
  ∧ sent (pollBatchStatus (trackingServer listing) "b1" trackedWorld).2
    = (sent trackedWorld ++ [GetBatchStatus "b1"])%list.
Proof.
  destruct (C2_results_only_when_all_terminal (trackingServer listing) "b1"
              trackedWorld) as (_ & _ & Hiff).
  split; [|vm_compute; reflexivity].
  apply Hiff. eexists. split; [reflexivity|]. right.
  exists [mkStatusDoc "other.pdf" "completed" (Some 100);
          mkStatusDoc "contract.pdf" "analyzing" (Some 0);
          mkStatusDoc "contract.pdf" "failed" (Some 100)],
         (mkStatusDoc "contract.pdf" "analyzing" (Some 0)).
  split; [reflexivity|]. split; [|reflexivity].
  apply list_elem_of_In. simpl. auto.
Defined.

(** Six hundred characters typed into the business context: five
    hundred are stored. *)
Lemma C10_user_context_witness :
  (String.length (userContext (ui (run initialWorld
      [EditUserContext (Js.repeat "x" 600)]))) ≤ 500)%nat
  ∧ String.length (Js.repeat "x" 600) = 600%nat.
Proof.
  split; [|vm_compute; reflexivity].
  apply (C10_user_context_capped [EditUserContext (Js.repeat "x" 600)]).
Defined.

(** *** The downloaded report *)

(** The report text around the date: what comes before it and what
    comes after it depend on the batch result only. *)
Lemma reportContent_split (b : BatchResult) :
  ∃ before after, ∀ localeDate,
    reportContent localeDate b = before +:+ localeDate +:+ after.
Proof.
  exists (reportTitle b +:+ nl +:+
          Js.repeat "=" (String.length (reportTitle b)) +:+ nl +:+ nl +:+
          "Analysis Date: ").
  eexists. intros localeDate. unfold reportContent.
  rewrite !JsFacts.app_assoc. reflexivity.
Qed.

(** C7, as the code has it.  The report text is a function of the batch
    result and of the date of the run, which it prints in its Analysis
    Date line: two runs on the same batch result give the same text
    exactly when their locale dates are the same. *)
Theorem C7_report_same_iff_same_date (s : State) (b : BatchResult)
    (date1 iso1 date2 iso2 : string) :
  batchResult s = Some b →
  snd <$> downloadBatchReport date1 iso1 s
  = snd <$> downloadBatchReport date2 iso2 s
  ↔ date1 = date2.
Proof.
  intros Hb. unfold downloadBatchReport. rewrite Hb. simpl.
  destruct (reportContent_split b) as (before & after & Hsplit).
  rewrite !Hsplit. split.
  - intros [= Heq]. apply JsFacts.app_inv_head in Heq.
    by apply JsFacts.app_inv_tail in Heq.
  - by intros ->.
Qed.

Lemma C7_report_witness :
  batchResult sampleReportState = Some (sampleResult (Some "b1"))
  ∧ snd <$> downloadBatchReport "11/2/2026" "2026-11-02T09:00:00.000Z"
              sampleReportState
    = snd <$> downloadBatchReport "11/2/2026" "2026-11-02T17:30:00.000Z"
              sampleReportState.
Proof.
  split; [reflexivity|].
  apply (C7_report_same_iff_same_date sampleReportState
           (sampleResult (Some "b1"))); reflexivity.
Defined.

(** The same batch result, downloaded on two days: two texts. *)
Lemma C7_counterexample : ¬ report_of_result_alone sampleReportState.
Proof.
  intros Hsame.
  specialize (Hsame "11/2/2026" "2026-11-02T09:00:00.000Z"
                    "11/3/2026" "2026-11-03T09:00:00.000Z").
  vm_compute in Hsame. discriminate Hsame.
Qed.

End UploadFacts.

(** ** The progress monitor *)

Module MonitorFacts.
Import AgentMonitor Vocabulary.

Lemma agent_is_true (m : Monitor) (agent st : string) :
  agent_is m agent st = true ↔ agentStates m !! agent = Some st.
Proof. unfold agent_is. apply bool_decide_eq_true. Qed.

(** The test [parallelComplete] of [getStepProgress]. *)
Lemma chunks_terminal_true (m : Monitor) :
  (total_chunks (parallelStatus m) <=? completed_chunks (parallelStatus m))
  && (0 <? total_chunks (parallelStatus m)) = true
  ↔ all_chunks_terminal m.
Proof.
  unfold all_chunks_terminal. rewrite andb_true_iff, Z.leb_le, Z.ltb_lt. lia.
Qed.

(** The three steps behind the barrier, each with the test that opens
    it. *)
Lemma cross_ref_gate (m : Monitor) :
  getStepProgress m "cross_ref" ≠ 0 ↔ all_chunks_terminal m.
Proof.
  rewrite <- chunks_terminal_true. unfold getStepProgress; simpl.
  destruct ((total_chunks (parallelStatus m) <=? completed_chunks (parallelStatus m))
            && (0 <? total_chunks (parallelStatus m))); simpl.
  - split; [done|intros _]. by repeat case_match.
  - split; [done|done].
Qed.

Lemma combination_gate (m : Monitor) :
  getStepProgress m "combination" ≠ 0
  ↔ agentStates m !! "Cross-Reference Agent" = Some "completed".
Proof.
  rewrite <- agent_is_true. unfold getStepProgress; simpl.
  destruct (agent_is m "Cross-Reference Agent" "completed"); simpl.
  - split; [done|intros _]. by repeat case_match.
  - split; [done|done].
Qed.

Lemma report_gate (m : Monitor) :
  getStepProgress m "report" ≠ 0
  ↔ agentStates m !! "Results Combination Agent" = Some "completed".
Proof.
  rewrite <- agent_is_true. unfold getStepProgress; simpl.
  destruct (agent_is m "Results Combination Agent" "completed"); simpl.
  - split; [done|intros _]. by repeat case_match.
  - split; [done|done].
Qed.

(** Behind an open gate, the step before stands at 100 when its own gate
    is open too, and at 0 otherwise. *)
Lemma before_cross_ref (m : Monitor) :
  all_chunks_terminal m →
  if agent_is m "Document Chunking Agent" "completed"
  then getStepProgress m "analysis" = 100
  else getStepProgress m "analysis" = 0.
Proof.
  intros Hdone. pose proof (proj2 (chunks_terminal_true m) Hdone) as Hpc.
  destruct Hdone as [_ Hpos].
  unfold getStepProgress; simpl. rewrite Hpc.
  destruct (agent_is m "Document Chunking Agent" "completed"); simpl; [|done].
  destruct (total_chunks (parallelStatus m) =? 0) eqn:Hzero; [lia|done].
Qed.

Lemma before_combination (m : Monitor) :
  agentStates m !! "Cross-Reference Agent" = Some "completed" →
  if (total_chunks (parallelStatus m) <=? completed_chunks (parallelStatus m))
     && (0 <? total_chunks (parallelStatus m))
  then getStepProgress m "cross_ref" = 100
  else getStepProgress m "cross_ref" = 0.
Proof.
  intros Hcr%agent_is_true. unfold getStepProgress; simpl. rewrite Hcr.
  by destruct ((total_chunks (parallelStatus m)
                <=? completed_chunks (parallelStatus m))
               && (0 <? total_chunks (parallelStatus m))).
Qed.

Lemma before_report (m : Monitor) :
  agentStates m !! "Results Combination Agent" = Some "completed" →
  if agent_is m "Cross-Reference Agent" "completed"
  then getStepProgress m "combination" = 100
  else getStepProgress m "combination" = 0.
Proof.
  intros Hrc%agent_is_true. unfold getStepProgress; simpl. rewrite Hrc.
  by destruct (agent_is m "Cross-Reference Agent" "completed").
Qed.

(** C3, as the code has it.  In the progress model the cross-reference
    step reports nonzero progress exactly when every chunk is done
    (completed_chunks >= total_chunks and total_chunks > 0).  Results
    combination reports nonzero progress exactly when the
    Cross-Reference Agent is in state 'completed', and report generation
    exactly when the Results Combination Agent is in state 'completed':
    the gate of a later stage is the state of an agent, not the progress
    of the step before.  A later stage that shows progress finds the
    step before at 100 or at 0, never in between, and at 100 exactly when
    the gate of that step is open as well: the Document Chunking Agent
    completed for the step before cross-reference, every chunk done for
    the step before results combination, the Cross-Reference Agent
    completed for the step before report generation. *)
Theorem C3_later_stage_gated (m : Monitor) :
  (getStepProgress m "cross_ref" ≠ 0 ↔ all_chunks_terminal m)
  ∧ (getStepProgress m "combination" ≠ 0
     ↔ agentStates m !! "Cross-Reference Agent" = Some "completed")
  ∧ (getStepProgress m "report" ≠ 0
     ↔ agentStates m !! "Results Combination Agent" = Some "completed")
  ∧ (getStepProgress m "cross_ref" ≠ 0 →
     (predecessor_finished m "cross_ref"
      ↔ agentStates m !! "Document Chunking Agent" = Some "completed"))
  ∧ (getStepProgress m "combination" ≠ 0 →
     (predecessor_finished m "combination" ↔ all_chunks_terminal m))
  ∧ (getStepProgress m "report" ≠ 0 →
     (predecessor_finished m "report"
      ↔ agentStates m !! "Cross-Reference Agent" = Some "completed"))
  ∧ ∀ step, later_stage step → getStepProgress m step ≠ 0 →
      predecessor_finished m step ∨ getStepProgress m (previous_step step) = 0.
Proof.
  assert (Hcross : getStepProgress m "cross_ref" ≠ 0 →
            (predecessor_finished m "cross_ref"
             ↔ agentStates m !! "Document Chunking Agent" = Some "completed")).
  { intros Hshown%cross_ref_gate. pose proof (before_cross_ref m Hshown) as Hbefore.
    unfold predecessor_finished.
    change (previous_step "cross_ref") with "analysis".
    rewrite <- agent_is_true.
    destruct (agent_is m "Document Chunking Agent" "completed").
    - split; [done|intros _; exact Hbefore].
    - rewrite Hbefore. split; [done|done]. }
  assert (Hcomb : getStepProgress m "combination" ≠ 0 →
            (predecessor_finished m "combination" ↔ all_chunks_terminal m)).
  { intros Hshown%combination_gate.
    pose proof (before_combination m Hshown) as Hbefore.
    unfold predecessor_finished.
    change (previous_step "combination") with "cross_ref".
    rewrite <- chunks_terminal_true.
    destruct ((total_chunks (parallelStatus m)
               <=? completed_chunks (parallelStatus m))
              && (0 <? total_chunks (parallelStatus m))).
    - split; [done|intros _; exact Hbefore].
    - rewrite Hbefore. split; [done|done]. }
  assert (Hrep : getStepProgress m "report" ≠ 0 →
            (predecessor_finished m "report"
             ↔ agentStates m !! "Cross-Reference Agent" = Some "completed")).
  { intros Hshown%report_gate. pose proof (before_report m Hshown) as Hbefore.
    unfold predecessor_finished.
    change (previous_step "report") with "combination".
    rewrite <- agent_is_true.
    destruct (agent_is m "Cross-Reference Agent" "completed").
    - split; [done|intros _; exact Hbefore].
    - rewrite Hbefore. split; [done|done]. }
  split; [apply cross_ref_gate|]. split; [apply combination_gate|].
  split; [apply report_gate|].
  split; [exact Hcross|]. split; [exact Hcomb|]. split; [exact Hrep|].
  intros step [-> | [-> | ->]] Hshown.
  - pose proof (before_cross_ref m (proj1 (cross_ref_gate m) Hshown)) as Hbefore.
    destruct (agent_is m "Document Chunking Agent" "completed");
      [left|right]; exact Hbefore.
  - pose proof (before_combination m (proj1 (combination_gate m) Hshown))
      as Hbefore.
    destruct ((total_chunks (parallelStatus m)
               <=? completed_chunks (parallelStatus m))
              && (0 <? total_chunks (parallelStatus m)));
      [left|right]; exact Hbefore.
  - pose proof (before_report m (proj1 (report_gate m) Hshown)) as Hbefore.
    destruct (agent_is m "Cross-Reference Agent" "completed");
      [left|right]; exact Hbefore.
Qed.

(** With all chunks done and the cross-reference agent completed,
    results combination shows progress behind a finished
    cross-reference step. *)
Lemma C3_later_stage_witness :
  getStepProgress sampleMonitor "combination" ≠ 0
  ∧ all_chunks_terminal sampleMonitor
  ∧ predecessor_finished sampleMonitor "combination".
Proof.
  assert (Hshown : getStepProgress sampleMonitor "combination" ≠ 0)
    by (vm_compute; discriminate).
  assert (Hdone : all_chunks_terminal sampleMonitor)
    by (split; vm_compute; [discriminate|reflexivity]).
  split; [exact Hshown|]. split; [exact Hdone|].
  destruct (C3_later_stage_gated sampleMonitor) as (_ & _ & _ & _ & Hcomb & _).
  exact (proj2 (Hcomb Hshown) Hdone).
Defined.

(** Every agent completed and three chunks of four done: the
    cross-reference step stands at 0, results combination and report
    generation at 100. *)
Lemma C3_counterexample :
  getStepProgress hastyMonitor "cross_ref" = 0
  ∧ getStepProgress hastyMonitor "combination" = 100
  ∧ getStepProgress hastyMonitor "report" = 100
  ∧ ¬ later_stages_wait hastyMonitor.
Proof.
  split; [vm_compute; reflexivity|]. split; [vm_compute; reflexivity|].
  split; [vm_compute; reflexivity|].
  intros (_ & Hcomb & _).
  assert (Hshown : getStepProgress hastyMonitor "combination" ≠ 0)
    by (vm_compute; discriminate).
  specialize (Hcomb Hshown). vm_compute in Hcomb. discriminate Hcomb.
Qed.

End MonitorFacts.

(** ** The issue list *)

Module IssueFacts.
Import ScrollableIssuesList Vocabulary.

(** *** Trimming and blank text *)

Lemma has_ink_rev_app (s acc : string) :
  has_ink (String.rev_app s acc) = has_ink s || has_ink acc.
Proof.
  revert acc. induction s as [|c s IH]; intros acc; simpl; [done|].
  rewrite IH. simpl. destruct (Js.is_space c); simpl.
  - done.
  - by rewrite orb_true_r.
Qed.

Lemma has_ink_rev (s : string) : has_ink (String.rev s) = has_ink s.
Proof. unfold String.rev. rewrite has_ink_rev_app. simpl. apply orb_false_r. Qed.

Lemma truthy_rev_app (s acc : string) :
  Js.truthy (String.rev_app s acc) = Js.truthy s || Js.truthy acc.
Proof.
  revert acc. induction s as [|c s IH]; intros acc; simpl; [done|].
  rewrite IH. simpl. apply orb_true_r.
Qed.

Lemma truthy_rev (s : string) : Js.truthy (String.rev s) = Js.truthy s.
Proof. unfold String.rev. rewrite truthy_rev_app. simpl. apply orb_false_r. Qed.

Lemma truthy_trimStart (s : string) : Js.truthy (Js.trimStart s) = has_ink s.
Proof. induction s as [|c s IH]; simpl; [done|]. by destruct (Js.is_space c). Qed.

Lemma has_ink_trimStart (s : string) : has_ink (Js.trimStart s) = has_ink s.
Proof.
  induction s as [|c s IH]; simpl; [done|].
  destruct (Js.is_space c) eqn:Hc; simpl; [done|]. by rewrite Hc.
Qed.

(** [s.trim()] is non-empty exactly when [s] is not blank. *)
Lemma truthy_trim (s : string) : Js.truthy (Js.trim s) = has_ink s.
Proof.
  unfold Js.trim, Js.trimEnd.
  by rewrite truthy_rev, truthy_trimStart, has_ink_rev, has_ink_trimStart.
Qed.

Lemma split_has_ink (sep : ascii) (cur s : string) :
  Js.is_space sep = true →
  existsb has_ink (Js.split_go sep cur s) = has_ink cur || has_ink s.
Proof.
  intros Hsep. revert cur. induction s as [|c s IH]; intros cur; simpl.
  - by rewrite has_ink_rev, !orb_false_r.
  - destruct (Ascii.eqb c sep) eqn:Hc; simpl.
    + apply Ascii.eqb_eq in Hc as ->. rewrite Hsep, IH, has_ink_rev. done.
    + rewrite IH. simpl.
      destruct (Js.is_space c), (has_ink cur), (has_ink s); done.
Qed.

Lemma trimmed_lines_nonempty (l : list string) :
  existsb has_ink l = true →
  List.filter Js.truthy (Js.trim <$> l) ≠ [].
Proof.
  induction l as [|x l IH]; simpl; [done|].
  rewrite truthy_trim. destruct (has_ink x); simpl; [done|]. exact IH.
Qed.

(** A section that is not blank has a line that is not blank. *)
Lemma linesOf_nonempty (section : string) :
  has_ink section = true → linesOf section ≠ [].
Proof.
  intros Hink. unfold linesOf, Js.split.
  apply trimmed_lines_nonempty. by rewrite split_has_ink.
Qed.

Lemma sections_not_blank (text : string) :
  Forall (λ section, has_ink section = true) (sections text).
Proof.
  apply Forall_forall. intros section Hin.
  apply list_elem_of_In, filter_In in Hin as [_ Hkeep].
  by rewrite truthy_trim in Hkeep.
Qed.

(** *** One issue per section, in the order of the sections *)

Lemma forEachSection_in_order (index : nat) (ss : list string) :
  Forall (λ section, has_ink section = true) ss →
  length (forEachSection index ss) = length ss
  ∧ ∀ i section, ss !! i = Some section →
      ∃ issue, forEachSection index ss !! i = Some issue
               ∧ id issue = issueId (index + i)
               ∧ severity issue = getSeverity section.
Proof.
  revert index. induction ss as [|s ss IH]; intros index Hall.
  - split; [done|]. intros i section Hi. by rewrite lookup_nil in Hi.
  - inversion Hall as [|? ? Hs Hss]; subst.
    destruct (IH (S index) Hss) as [Hlen Hnth]. simpl.
    destruct (linesOf s) as [|firstLine more] eqn:Hlines;
      [by destruct (linesOf_nonempty s Hs)|].
    simpl. split; [by rewrite Hlen|].
    intros [|i] section Hi; simpl in *.
    + injection Hi as <-. eexists. split; [reflexivity|]. simpl.
      by rewrite Nat.add_0_r.
    + destruct (Hnth i section Hi) as (issue & Hissue & Hid & Hsev).
      exists issue. split; [done|]. split; [|done].
      rewrite Hid. f_equal. lia.
Qed.

(** C6, as the code has it.  The issue list keeps the order of the
    analysis text and is not sorted by severity: there is one issue per
    non-blank section, the i-th issue comes from the i-th section and
    has the id issue-i, and its severity is the keyword class of that
    section (high if a high keyword occurs in it, else medium if a
    medium keyword occurs, else low). *)
Theorem C6_issues_in_text_order (text : string) :
  let issues := parseIssuesFromAnalysis text in
  length issues = length (sections text)
  ∧ ∀ i section, sections text !! i = Some section →
      ∃ issue, issues !! i = Some issue
               ∧ id issue = issueId i
               ∧ severity issue = getSeverity section.
Proof.
  intros issues. subst issues. unfold parseIssuesFromAnalysis.
  destruct text as [|c text]; simpl negb; cbv iota.
  - split; [done|]. intros i section Hi.
    replace (sections "") with (@nil string) in Hi by reflexivity.
    by rewrite lookup_nil in Hi.
  - apply (forEachSection_in_order 0), sections_not_blank.
Qed.

Lemma C6_issues_witness :
  sections sampleAnalysis !! 1%nat = Some "2. Critical liability exposure"
  ∧ ∃ issue, parseIssuesFromAnalysis sampleAnalysis !! 1%nat = Some issue
             ∧ id issue = "issue-1" ∧ severity issue = high.
Proof.
  assert (Hsection : sections sampleAnalysis !! 1%nat
                     = Some "2. Critical liability exposure")
    by (vm_compute; reflexivity).
  split; [exact Hsection|].
  destruct (C6_issues_in_text_order sampleAnalysis) as [_ Hnth].
  destruct (Hnth 1%nat _ Hsection) as (issue & Hissue & Hid & Hsev).
  exists issue. split; [exact Hissue|]. split; [exact Hid|].
  rewrite Hsev. vm_compute. reflexivity.
Defined.

(** A minor finding listed before a critical one: low before high. *)
Lemma C6_counterexample :
  ¬ severity_sorted (parseIssuesFromAnalysis sampleAnalysis).
Proof.
  intros Hsorted.
  specialize (Hsorted 0%nat 1%nat
                (mkIssue "issue-0" "1. Minor formatting note" low)
                (mkIssue "issue-1" "2. Critical liability exposure" high)).
  simpl in Hsorted.
  assert (Hbad : (2 ≤ 0)%nat).
  { apply Hsorted; [lia|vm_compute; reflexivity|vm_compute; reflexivity]. }
  lia.
Qed.

End IssueFacts.

(** ** More on text with something to read *)

Module TextFacts.
Import Vocabulary IssueFacts.

Lemma has_ink_app (a b : string) :
  has_ink (a +:+ b) = has_ink a || has_ink b.
Proof.
  induction a as [|c a IH]; [done|].
  rewrite JsFacts.app_cons. simpl. by rewrite IH, orb_assoc.
Qed.

Lemma has_ink_trim (s : string) : has_ink (Js.trim s) = has_ink s.
Proof.
  unfold Js.trim, Js.trimEnd.
  by rewrite has_ink_rev, has_ink_trimStart, has_ink_rev, has_ink_trimStart.
Qed.

Lemma has_ink_truthy (s : string) : has_ink s = true → Js.truthy s = true.
Proof. by destruct s. Qed.

End TextFacts.

(** ** More on the upload component *)

Module UploadMore.
Import Net MultiDocumentUpload Vocabulary MoreVocabulary Frame UploadFacts.

#[local] Existing Instance preserves_po.

(** *** The three ways a submission ends *)

Ltac accept_click Hen :=
  run_submit; rewrite Hen; simpl; rewrite (enabled_guard _ Hen); simpl.

Lemma elem_of_marked (f : DocumentFile → DocumentFile) (ds : list DocumentFile)
    (d' : DocumentFile) :
  d' ∈ map f ds → ∃ d, d ∈ ds ∧ d' = f d.
Proof.
  intros Hin. apply list_elem_of_fmap in Hin as (d & -> & Hd). by exists d.
Qed.

(** X1.  A submission that the back end does not accept: whether the request
    is rejected, answered with a status that is not ok, or answered
    with a body that does not parse, every document ends failed at 100
    per cent with the message of the failure as its error, the
    component stops processing, no result is stored and no timer is
    started. *)
Theorem failed_submission_fails_all (w : World) (srv : Server) (msg : string) :
  analyzeDisabled (ui w) = false →
  submit_error (analyze_multiple srv (file <$> documents (ui w))
                  (getFinalPrompt (ui w))) = Some msg →
  let w' := step w (ClickAnalyze srv) in
  length (documents (ui w')) = length (documents (ui w))
  ∧ (∀ d', d' ∈ documents (ui w') →
       status d' = "failed" ∧ error d' = Some msg ∧ progress d' = 100)
  ∧ isProcessing (ui w') = false
  ∧ batchResult (ui w') = None
  ∧ intervals w' = intervals w ∧ timeouts w' = timeouts w.
Proof.
  intros Hen Herr w'. subst w'. accept_click Hen.
  destruct (analyze_multiple srv _ _) as [m|[[m|r]|st [m|ed]]];
    simpl in *; try discriminate Herr; injection Herr as <-;
    (split; [by rewrite !length_map|]);
    (split; [|done]);
    intros d' Hin;
    apply elem_of_marked in Hin as (d & _ & ->); done.
Qed.

Lemma failed_submission_witness :
  analyzeDisabled (ui finishedWorld) = false
  ∧ ∀ d', d' ∈ documents (ui (step finishedWorld (ClickAnalyze refusingServer))) →
          status d' = "failed"
          ∧ error d' = Some "Maximum 10 documents allowed per batch"
          ∧ progress d' = 100.
Proof.
  assert (Hen : analyzeDisabled (ui finishedWorld) = false)
    by (vm_compute; reflexivity).
  split; [exact Hen|].
  apply (failed_submission_fails_all finishedWorld refusingServer
           "Maximum 10 documents allowed per batch" Hen).
  vm_compute. reflexivity.
Defined.

(** X2.  A submission answered at once, without batch id: the answer is
    stored as the batch result, every document ends completed or failed
    at 100 per cent, the component stops processing and no timer is
    started. *)
Theorem direct_answer_finishes_all (w : World) (srv : Server) (r : BatchResult) :
  analyzeDisabled (ui w) = false →
  analyze_multiple srv (file <$> documents (ui w)) (getFinalPrompt (ui w))
    = Resolves (Ok200 (Value r)) →
  Js.truthy_opt (batch_id r) = false →
  let w' := step w (ClickAnalyze srv) in
  length (documents (ui w')) = length (documents (ui w))
  ∧ (∀ d', d' ∈ documents (ui w') →
       is_terminal (status d') = true ∧ progress d' = 100)
  ∧ isProcessing (ui w') = false
  ∧ batchResult (ui w') = Some r
  ∧ intervals w' = intervals w ∧ timeouts w' = timeouts w.
Proof.
  intros Hen Hanswer Hid w'. subst w'. accept_click Hen.
  rewrite Hanswer. simpl. rewrite Hid. simpl.
  destruct (if String.eqb (analysis_type r) "individual" then results r else None)
    as [rs|]; simpl.
  - split; [by rewrite !length_map|]. split; [|done].
    intros d' Hin. apply elem_of_marked in Hin as (d & _ & ->).
    unfold applyResult. simpl.
    destruct (List.find _ rs) as [a|]; simpl; [|done].
    by destruct (String.eqb (r_status a) "completed").
  - split; [by rewrite !length_map|]. split; [|done].
    intros d' Hin. by apply elem_of_marked in Hin as (d & _ & ->).
Qed.

Lemma direct_answer_witness :
  analyzeDisabled (ui finishedWorld) = false
  ∧ isProcessing (ui (step finishedWorld (ClickAnalyze directServer))) = false
  ∧ batchResult (ui (step finishedWorld (ClickAnalyze directServer)))
    = Some (sampleResult None).
Proof.
  assert (Hen : analyzeDisabled (ui finishedWorld) = false)
    by (vm_compute; reflexivity).
  split; [exact Hen|].
  destruct (direct_answer_finishes_all finishedWorld directServer
              (sampleResult None) Hen) as (_ & _ & Hproc & Hres & _);
    [reflexivity|reflexivity|].
  split; [exact Hproc|exact Hres].
Defined.




Lemma enabled_not_processing (s : State) :
  analyzeDisabled s = false → isProcessing s = false.
Proof.
  unfold analyzeDisabled. intros H.
  apply orb_false_elim in H as [H _]. by apply orb_false_elim in H as [H _].
Qed.



(** *** What a tick of the polling interval leaves behind *)

(** The flags after one poll: set by the results when the snapshot is
    complete and the results arrive, untouched otherwise. *)
Lemma poll_flags (srv : Server) (b : string) (w : World) :
  let w1 := (pollBatchStatus srv b w).2 in
  match snapshot_of (batch_status srv b) with
  | Some snap =>
      if truthy_bool (isComplete snap) then
        match results_of (batch_results srv b) with
        | Some r => batchResult (ui w1) = Some r
                    ∧ isProcessing (ui w1) = false
                    ∧ currentBatchId (ui w1) = None
        | None => batchResult (ui w1) = batchResult (ui w)
                  ∧ isProcessing (ui w1) = isProcessing (ui w)
                  ∧ currentBatchId (ui w1) = currentBatchId (ui w)
        end
      else batchResult (ui w1) = batchResult (ui w)
           ∧ isProcessing (ui w1) = isProcessing (ui w)
           ∧ currentBatchId (ui w1) = currentBatchId (ui w)
  | None => batchResult (ui w1) = batchResult (ui w)
            ∧ isProcessing (ui w1) = isProcessing (ui w)
            ∧ currentBatchId (ui w1) = currentBatchId (ui w)
  end.
Proof.
  run_handler.
  destruct (batch_status srv b) as [msg|[[msg|snap]|st ed]]; simpl; try done.
  destruct (truthy_bool (isComplete snap)) eqn:Hc; simpl; [|done].
  by destruct (batch_results srv b) as [msg|[[msg|r]|st ed]].
Qed.

Lemma complete_not_continue (snap : StatusSnapshot) :
  truthy_bool (isComplete snap) = true → not_bool (isComplete snap) = false.
Proof. unfold not_bool. by intros ->. Qed.

(** X4.  The tick that finds the batch complete and gets the results: the
    results are stored, the component stops processing, the batch id is
    dropped and the interval is cleared, after one status request and
    one results request. *)
Theorem complete_batch_delivers (w : World) (h : nat) (srv : Server)
    (b : string) (snap : StatusSnapshot) (r : BatchResult) :
  intervals w !! h = Some b →
  snapshot_of (batch_status srv b) = Some snap →
  all_terminal snap →
  results_of (batch_results srv b) = Some r →
  let w' := step w (IntervalFires h srv) in
  batchResult (ui w') = Some r
  ∧ isProcessing (ui w') = false
  ∧ currentBatchId (ui w') = None
  ∧ intervals w' = delete h (intervals w)
  ∧ sent w' = (sent w ++ [GetBatchStatus b; GetBatchResults b])%list.
Proof.
  intros Hlive Hsnap Hall Hres w'. subst w'.
  apply truthy_complete_all_terminal in Hall.
  rewrite (live_interval_step w h srv b Hlive). simpl.
  rewrite Hsnap, (complete_not_continue _ Hall). simpl.
  pose proof (poll_flags srv b w) as Hflags. simpl in Hflags.
  rewrite Hsnap, Hall, Hres in Hflags. destruct Hflags as (? & ? & ?).
  destruct (poll_timers srv b w) as (Hint & _ & _).
  rewrite poll_sends, Hsnap, Hall, Hint. done.
Qed.


(** X6.  The tick that finds a document still on its way (or no document
    list): one status request and nothing else; the timers, the result
    and the flags stay as they were. *)
Theorem unfinished_batch_keeps_polling (w : World) (h : nat) (srv : Server)
    (b : string) (snap : StatusSnapshot) :
  intervals w !! h = Some b →
  snapshot_of (batch_status srv b) = Some snap →
  s_documents snap = None ∨ some_non_terminal snap →
  let w' := step w (IntervalFires h srv) in
  intervals w' = intervals w ∧ timeouts w' = timeouts w
  ∧ sent w' = (sent w ++ [GetBatchStatus b])%list
  ∧ batchResult (ui w') = batchResult (ui w)
  ∧ isProcessing (ui w') = isProcessing (ui w)
  ∧ currentBatchId (ui w') = currentBatchId (ui w).
Proof.
  intros Hlive Hsnap Hopen w'. subst w'.
  apply not_complete_cases in Hopen.
  assert (Hc : truthy_bool (isComplete snap) = false).
  { unfold not_bool in Hopen. by apply negb_true_iff in Hopen. }
  rewrite (live_interval_step w h srv b Hlive). simpl.
  rewrite Hsnap, Hopen.
  pose proof (poll_flags srv b w) as Hflags. simpl in Hflags.
  rewrite Hsnap, Hc in Hflags. destruct Hflags as (? & ? & ?).
  destruct (poll_timers srv b w) as (Hint & Htime & _).
  rewrite poll_sends, Hsnap, Hc. done.
Qed.

Lemma complete_batch_witness :
  intervals trackedWorld !! 0%nat = Some "b1"
  ∧ batchResult (ui (step trackedWorld (IntervalFires 0 (trackingServer allDone))))
    = Some (sampleResult (Some "b1"))
  ∧ isProcessing (ui (step trackedWorld (IntervalFires 0 (trackingServer allDone))))
    = false.
Proof.
  assert (Hlive : intervals trackedWorld !! 0%nat = Some "b1")
    by (vm_compute; reflexivity).
  split; [exact Hlive|].
  destruct (complete_batch_delivers trackedWorld 0 (trackingServer allDone) "b1"
              (mkStatusSnapshot (Some [mkStatusDoc "contract.pdf" "completed" (Some 100)]))
              (sampleResult (Some "b1")) Hlive)
    as (Hres & Hproc & _);
    [reflexivity| |reflexivity|split; [exact Hres|exact Hproc]].
  eexists. split; [reflexivity|].
  intros e He. apply list_elem_of_singleton in He as ->. reflexivity.
Defined.


Lemma unfinished_batch_witness :
  intervals trackedWorld !! 0%nat = Some "b1"
  ∧ intervals (step trackedWorld (IntervalFires 0 (trackingServer listing)))
    = intervals trackedWorld.
Proof.
  assert (Hlive : intervals trackedWorld !! 0%nat = Some "b1")
    by (vm_compute; reflexivity).
  split; [exact Hlive|].
  destruct (unfinished_batch_keeps_polling trackedWorld 0 (trackingServer listing)
              "b1" _ Hlive eq_refl) as (Hint & _); [|exact Hint].
  right. eexists _, (mkStatusDoc "contract.pdf" "analyzing" (Some 0)).
  split; [reflexivity|]. split; [|reflexivity].
  apply list_elem_of_In. simpl. auto.
Defined.

(** *** No second analysis while one is processing *)

#[local] Instance only_polls_po : PreOrder only_polls.
Proof.
  split.
  - intros w. exists []. split; [by rewrite app_nil_r|constructor].
  - intros w1 w2 w3 (r12 & H12 & F12) (r23 & H23 & F23).
    exists (r12 ++ r23)%list. split.
    + by rewrite H23, H12, <- app_assoc.
    + by apply Forall_app.
Qed.

Ltac leaf_polls :=
  intros ?;
  unfold only_polls, fetch, setInterval, setTimeout, clearInterval,
    takeTimeout, setDocuments, setBatchResult, setIsProcessing,
    setCurrentBatchId, modify_ui;
  simpl; repeat case_match; simpl;
  first [ exists []; split; [by rewrite app_nil_r|constructor]
        | eexists [_]; split; [reflexivity|];
          constructor; [exact I|constructor] ].

Lemma handler_only_polls (e : Event) :
  (∀ srv, e ≠ ClickAnalyze srv) → respects only_polls (handler e).
Proof.
  intros Hne. destruct e as [now fs|i| |i|v|v|srv|h srv|t]; simpl;
    try (by destruct (Hne srv));
    unfold onDrop, removeDocument, clearAll, onInterval, pollBatchStatus,
      onTimeout;
    frame ltac:(leaf_polls).
Qed.

(** X7.  While the component is processing, no event makes it send an
    analysis request: whatever is sent is a status or results request
    of the polling. *)
Theorem processing_sends_only_polls (w : World) (e : Event) :
  isProcessing (ui w) = true →
  ∃ reqs, sent (step w e) = (sent w ++ reqs)%list
          ∧ ∀ files prompt, PostAnalyzeMultiple files prompt ∉ reqs.
Proof.
  intros Hproc.
  assert (Hrel : only_polls w (step w e)).
  { destruct e as [now fs|i| |i|v|v|srv|h srv|t];
      try (apply handler_only_polls; intros srv0; discriminate).
    rewrite disabled_click_idle; [reflexivity|].
    unfold analyzeDisabled. by rewrite Hproc. }
  destruct Hrel as (reqs & Hsent & Hall). exists reqs. split; [exact Hsent|].
  intros files prompt Hin.
  rewrite Forall_forall in Hall. exact (Hall _ Hin).
Qed.

Lemma processing_witness :
  isProcessing (ui trackedWorld) = true
  ∧ sent (step trackedWorld (ClickAnalyze directServer)) = sent trackedWorld.
Proof.
  assert (Hproc : isProcessing (ui trackedWorld) = true)
    by (vm_compute; reflexivity).
  split; [exact Hproc|].
  destruct (processing_sends_only_polls trackedWorld (ClickAnalyze directServer)
              Hproc) as (reqs & Hsent & _).
  vm_compute. reflexivity.
Defined.

(** *** A timeout that holds no true flag *)

Lemma step_captured_idle (w : World) (e : Event) :
  captured_idle w → captured_idle (step w e).
Proof.
  intros Hflag.
  destruct e as [now fs|i| |i|v|v|srv|h srv|t].
  - done.
  - done.
  - done.
  - done.
  - done.
  - done.
  - destruct (analyzeDisabled (ui w)) eqn:Hen;
      [by rewrite disabled_click_idle|].
    pose proof (enabled_not_processing _ Hen) as Hproc.
    accept_click Hen.
    destruct (analyze_multiple srv _ _) as [m|[[m|r]|st [m|ed]]]; simpl;
      try done.
    destruct (Js.truthy_opt (batch_id r)); simpl.
    + intros t h c Hlook. simpl in Hlook.
      apply lookup_insert_Some in Hlook as [[_ Heq]|[_ Hlook]].
      * injection Heq as _ <-. exact Hproc.
      * by apply (Hflag t h c).
    + by destruct (if String.eqb (analysis_type r) "individual"
                   then results r else None).
  - destruct (intervals w !! h) as [b|] eqn:Hlive;
      [|by rewrite cleared_interval_idle].
    rewrite (live_interval_step w h srv b Hlive). simpl.
    destruct (poll_timers srv b w) as (_ & Htime & _).
    assert (Hpolled : captured_idle (pollBatchStatus srv b w).2)
      by (unfold captured_idle; by rewrite Htime).
    by case_match.
  - unfold captured_idle, step, handler, onTimeout, takeTimeout,
      clearInterval, setIsProcessing, modify_ui, mbind, M_bind, mret, M_ret.
    destruct (timeouts w !! t) as [[h c]|] eqn:Hpending; simpl.
    + rewrite (Hflag t h c Hpending). simpl.
      intros t0 h0 c0 Hlook.
      apply lookup_delete_Some in Hlook as [_ Hlook].
      by apply (Hflag t0 h0 c0).
    + intros t0 h0 c0 Hlook.
      apply lookup_delete_Some in Hlook as [_ Hlook].
      by apply (Hflag t0 h0 c0).
Qed.

Lemma reachable_captured_idle (es : list Event) :
  captured_idle (run initialWorld es).
Proof.
  assert (Hgen : ∀ w, captured_idle w → captured_idle (run w es)).
  { induction es as [|e es IH]; intros w Hw; simpl; [done|].
    apply IH. by apply step_captured_idle. }
  apply Hgen.
  intros t h c Hlook. simpl in Hlook. by rewrite lookup_empty in Hlook.
Qed.

(** X9.  In every state the component can reach, the polling timeout leaves
    the React state as it is, the processing flag included, and sends
    nothing: the [isProcessing] that its callback tests is the one of
    the click that set the timer, which is false. *)
Theorem timeout_leaves_state (es : list Event) (t : nat) :
  let w := run initialWorld es in
  ui (step w (TimeoutFires t)) = ui w
  ∧ sent (step w (TimeoutFires t)) = sent w.
Proof.
  intros w. pose proof (reachable_captured_idle es) as Hflag.
  fold w in Hflag.
  unfold step, handler, onTimeout, takeTimeout, clearInterval,
    setIsProcessing, modify_ui, mbind, M_bind, mret, M_ret.
  destruct (timeouts w !! t) as [[h c]|] eqn:Hpending; simpl; [|done].
  by rewrite (Hflag t h c Hpending).
Qed.

(** *** When the Analyze button is enabled *)

Lemma final_prompt_ink (s : State) :
  Js.truthy (Js.trim (getFinalPrompt s))
  = has_ink (basePrompt s) || has_ink (userContext s).
Proof.
  unfold getFinalPrompt. rewrite (IssueFacts.truthy_trim (userContext s)).
  destruct (has_ink (userContext s)) eqn:Hc.
  - rewrite IssueFacts.truthy_trim, !TextFacts.has_ink_app, Hc.
    by rewrite !orb_true_r.
  - by rewrite IssueFacts.truthy_trim, orb_false_r.
Qed.

(** X10.  The Analyze button is enabled exactly when the component is not
    processing, a document is listed, and the base prompt or the
    business context has a character that is not white space: a blank
    custom prompt passes once some context is typed. *)
Theorem analyze_enabled_iff (s : State) :
  analyzeDisabled s = false
  ↔ isProcessing s = false ∧ documents s ≠ []
    ∧ (has_ink (basePrompt s) = true ∨ has_ink (userContext s) = true).
Proof.
  unfold analyzeDisabled. rewrite final_prompt_ink.
  rewrite !orb_false_iff, negb_false_iff, orb_true_iff, Nat.eqb_neq.
  destruct (documents s) as [|d ds]; simpl; intuition (done || lia).
Qed.

(** *** Dropping and removing documents *)

Lemma newDocument_id_inj (now : Z) (i j : nat) (f g : File) :
  id (newDocument now i f) = id (newDocument now j g) → i = j.
Proof.
  unfold newDocument. simpl. intros Heq.
  do 3 apply JsFacts.app_inv_head in Heq.
  apply (inj pretty) in Heq. lia.
Qed.

(** X11.  A drop puts one fresh document per accepted file behind the
    documents already listed, which stay as they are, in the order of
    the files; the ids of the documents of one drop are pairwise
    distinct. *)
Theorem drop_appends (w : World) (now : Z) (fs : list File) :
  ∃ news,
    documents (ui (step w (Drop now fs))) = (documents (ui w) ++ news)%list
    ∧ file <$> news = fs
    ∧ Forall fresh_document news
    ∧ NoDup (id <$> news).
Proof.
  exists (imap (newDocument now) fs). split; [done|]. split; [|split].
  - rewrite fmap_imap. clear w.
    assert (Hgen : ∀ (g : nat → nat),
               imap (λ n, file ∘ newDocument now (g n)) fs = fs).
    { induction fs as [|f fs IH]; intros g; simpl; [done|].
      f_equal. apply (IH (g ∘ S)). }
    apply (Hgen (λ n, n)).
  - apply Forall_forall. intros d Hd.
    apply list_elem_of_lookup in Hd as [i Hi].
    rewrite list_lookup_imap in Hi.
    destruct (fs !! i) as [f|]; simpl in Hi; [|done].
    injection Hi as <-. done.
  - apply NoDup_alt. intros i j x Hi Hj.
    rewrite list_lookup_fmap, list_lookup_imap in Hi.
    rewrite list_lookup_fmap, list_lookup_imap in Hj.
    destruct (fs !! i) as [f|]; simpl in Hi; [|done].
    destruct (fs !! j) as [g|]; simpl in Hj; [|done].
    injection Hi as Hi. injection Hj as Hj.
    apply (newDocument_id_inj now i j f g).
    exact (eq_trans Hi (eq_sym Hj)).
Qed.

(** X12.  The id of a dropped document is made of the time of the drop and
    the position of the file in it.  Two files dropped one after the
    other at the same time get the same id, and removing the first one
    removes both. *)
Theorem same_moment_ids_clash (w : World) (now : Z) (f1 f2 : File) :
  id (newDocument now 0 f1) = id (newDocument now 0 f2)
  ∧ documents (ui (run w [Drop now [f1]; Drop now [f2];
                          Remove (id (newDocument now 0 f1))]))
    = filter (λ doc, id doc ≠ id (newDocument now 0 f1)) (documents (ui w)).
Proof.
  split; [done|]. simpl.
  rewrite <- !app_assoc, filter_app. simpl.
  rewrite !filter_cons_False by (intros Hne; by apply Hne).
  by rewrite filter_nil, app_nil_r.
Qed.

(** *** Clear All does not cancel the batch *)

(** X13.  Clear All empties the list and drops the result and the batch id,
    but leaves the timers and the processing flag alone: the interval
    of a running batch goes on polling, and the tick that finds the
    batch complete stores its result over the emptied list. *)
Theorem clear_does_not_cancel (w : World) (h : nat) (srv : Server)
    (b : string) (snap : StatusSnapshot) (r : BatchResult) :
  intervals w !! h = Some b →
  snapshot_of (batch_status srv b) = Some snap →
  all_terminal snap →
  results_of (batch_results srv b) = Some r →
  let w1 := step w ClearAll in
  let w2 := step w1 (IntervalFires h srv) in
  intervals w1 = intervals w ∧ timeouts w1 = timeouts w
  ∧ isProcessing (ui w1) = isProcessing (ui w)
  ∧ documents (ui w1) = [] ∧ batchResult (ui w1) = None
  ∧ documents (ui w2) = [] ∧ batchResult (ui w2) = Some r
  ∧ sent w2 = (sent w ++ [GetBatchStatus b; GetBatchResults b])%list
  ∧ currentBatchId (ui w1) = None.
Proof.
  intros Hlive Hsnap Hall Hres w1 w2.
  assert (Hlive1 : intervals w1 !! h = Some b) by exact Hlive.
  repeat (split; [done|]).
  assert (Hid : currentBatchId (ui w1) = None) by done.
  apply truthy_complete_all_terminal in Hall.
  subst w2. rewrite (live_interval_step w1 h srv b Hlive1). simpl.
  rewrite Hsnap, (complete_not_continue _ Hall). simpl.
  pose proof (poll_flags srv b w1) as Hflags. simpl in Hflags.
  rewrite Hsnap, Hall, Hres in Hflags. destruct Hflags as (Hr & _ & _).
  rewrite poll_documents, poll_sends, Hsnap, Hall. done.
Qed.

Lemma clear_witness :
  intervals trackedWorld !! 0%nat = Some "b1"
  ∧ batchResult (ui (step (step trackedWorld ClearAll)
                          (IntervalFires 0 (trackingServer allDone))))
    = Some (sampleResult (Some "b1")).
Proof.
  assert (Hlive : intervals trackedWorld !! 0%nat = Some "b1")
    by (vm_compute; reflexivity).
  split; [exact Hlive|].
  destruct (clear_does_not_cancel trackedWorld 0 (trackingServer allDone) "b1"
              (mkStatusSnapshot (Some [mkStatusDoc "contract.pdf" "completed" (Some 100)]))
              (sampleResult (Some "b1")) Hlive)
    as (_ & _ & _ & _ & _ & _ & Hres & _);
    [reflexivity| |reflexivity|exact Hres].
  eexists. split; [reflexivity|].
  intros e He. apply list_elem_of_singleton in He as ->. reflexivity.
Defined.

End UploadMore.

(** ** More on the progress monitor *)

Module MonitorMore.
Import AgentMonitor MonitorSteps.

Lemma agent_is_finished (m : Monitor) (agent : string) :
  agent_is m agent "completed" = true ↔ finished m agent.
Proof. unfold agent_is, finished. apply bool_decide_eq_true. Qed.

Lemma agent_not_finished (m : Monitor) (agent : string) :
  agent_is m agent "completed" = false ↔ ¬ finished m agent.
Proof. unfold agent_is, finished. apply bool_decide_eq_false. Qed.

(** Split on the tests of [getStepProgress], the inner ones first. *)
Ltac plain a :=
  lazymatch a with
  | context [if _ then _ else _] => fail
  | _ => idtac
  end.

Ltac split_tests m :=
  repeat (match goal with
          | |- context [agent_is m ?a ?s] => destruct (agent_is m a s)
          | |- context [(?a <? ?b)%nat] => destruct (a <? b)%nat
          | |- context [(?a <=? ?b)%Z] => plain a; destruct (Z.leb_spec a b)
          | |- context [(?a <? ?b)%Z] => plain b; destruct (Z.ltb_spec a b)
          | |- context [(?a =? ?b)%Z] => plain a; destruct (Z.eqb_spec a b)
          end; simpl).

Ltac by_cases m :=
  unfold shown, getMainAgents, steps, chunks_done; simpl;
  unfold look, getStepProgress; simpl;
  rewrite <- ?agent_is_finished;
  split_tests m.

(** X16.  A step never shows less than 0 per cent and, as long as the
    reported completion percentage is at most 100, never more than
    100, whatever the name of the step. *)
Theorem progress_in_range (m : Monitor) (step : string) :
  completion_percentage (parallelStatus m) ≤ 100 →
  0 ≤ getStepProgress m step ≤ 100.
Proof.
  intros Hpct. unfold getStepProgress.
  repeat match goal with
         | |- context [String.eqb step ?s] => destruct (String.eqb step s)
         end;
    split_tests m; lia.
Qed.

Lemma progress_witness :
  completion_percentage (parallelStatus Vocabulary.sampleMonitor) ≤ 100
  ∧ 0 ≤ getStepProgress Vocabulary.sampleMonitor "analysis" ≤ 100.
Proof.
  assert (Hpct : completion_percentage (parallelStatus Vocabulary.sampleMonitor) ≤ 100)
    by (vm_compute; discriminate).
  split; [exact Hpct|].
  exact (progress_in_range Vocabulary.sampleMonitor "analysis" Hpct).
Defined.

(** X17.  When a step is shown as completed.  The parser step: its agent has
    completed.  Chunking, cross-reference, combination and report: the
    gate of the step is open and its own agent has completed.  The
    parallel analysis: the chunking agent has completed, there are
    chunks, and either all of them are done or the reported percentage
    is exactly 100, whatever the chunk counts say. *)
Theorem shown_completed_iff (m : Monitor) :
  (shown m "Document Parser" = Some "completed" ↔ finished m "Document Parser")
  ∧ (shown m "Document Chunking" = Some "completed"
     ↔ finished m "Document Parser" ∧ finished m "Document Chunking Agent")
  ∧ (shown m "Parallel Analysis" = Some "completed"
     ↔ finished m "Document Chunking Agent"
       ∧ total_chunks (parallelStatus m) ≠ 0
       ∧ (chunks_done m ∨ completion_percentage (parallelStatus m) = 100))
  ∧ (shown m "Cross-Reference" = Some "completed"
     ↔ chunks_done m ∧ finished m "Cross-Reference Agent")
  ∧ (shown m "Results Combination" = Some "completed"
     ↔ finished m "Cross-Reference Agent"
       ∧ finished m "Results Combination Agent")
  ∧ (shown m "Report Generation" = Some "completed"
     ↔ finished m "Results Combination Agent" ∧ finished m "Report Generator").
Proof.
  repeat apply conj; by_cases m;
    intuition (try done; try lia; try congruence).
Qed.

(** X18.  When a step is shown as idle.  Every step after the parser is idle
    exactly as long as its gate is shut: the agent of the step before
    has not completed or, for the cross-reference, not all chunks are
    done.  The parser step is idle exactly when no agent has reported
    a state. *)
Theorem shown_idle_iff (m : Monitor) :
  (shown m "Document Parser" = Some "idle" ↔ agentStates m = ∅)
  ∧ (shown m "Document Chunking" = Some "idle" ↔ ¬ finished m "Document Parser")
  ∧ (shown m "Parallel Analysis" = Some "idle"
     ↔ ¬ finished m "Document Chunking Agent")
  ∧ (shown m "Cross-Reference" = Some "idle" ↔ ¬ chunks_done m)
  ∧ (shown m "Results Combination" = Some "idle"
     ↔ ¬ finished m "Cross-Reference Agent")
  ∧ (shown m "Report Generation" = Some "idle"
     ↔ ¬ finished m "Results Combination Agent").
Proof.
  split.
  { unfold shown, getMainAgents, steps. simpl.
    unfold look, getStepProgress. simpl.
    destruct (agent_is m "Document Parser" "completed") eqn:Hp; simpl.
    - apply agent_is_finished in Hp. split; [done|].
      intros Hempty. unfold finished in Hp.
      by rewrite Hempty, lookup_empty in Hp.
    - destruct (0 <? size (agentStates m))%nat eqn:Hsize; simpl.
      + apply Nat.ltb_lt in Hsize. split; [done|].
        intros Hempty. rewrite Hempty, map_size_empty in Hsize. lia.
      + apply Nat.ltb_ge in Hsize. split; [|done]. intros _.
        apply map_size_empty_iff. lia. }
  repeat apply conj; by_cases m;
    intuition (try done; try lia; try congruence).
Qed.

End MonitorMore.

(** ** More on the issue list *)

Module IssueMore.
Import ScrollableIssuesList Vocabulary IssueFacts TextFacts.

(** *** Keywords in a longer text *)

Lemma toLowerCase_app (a b : string) :
  Js.toLowerCase (a +:+ b) = Js.toLowerCase a +:+ Js.toLowerCase b.
Proof.
  induction a as [|c a IH]; [done|].
  rewrite JsFacts.app_cons. simpl. by rewrite IH.
Qed.

Lemma prefix_app (k a b : string) :
  String.prefix k a = true → String.prefix k (a +:+ b) = true.
Proof.
  revert a. induction k as [|c k IH]; intros a;
    [intros _; by destruct (a +:+ b)|].
  destruct a as [|d a]; simpl; [done|].
  destruct (ascii_dec c d); [apply IH|done].
Qed.

Lemma includes_empty (s : string) : Js.includes s "" = true.
Proof. by destruct s. Qed.

Lemma includes_cons (c : ascii) (s k : string) :
  Js.includes (String c s) k = String.prefix k (String c s) || Js.includes s k.
Proof. reflexivity. Qed.

Lemma includes_app_l (a b k : string) :
  Js.includes a k = true → Js.includes (a +:+ b) k = true.
Proof.
  induction a as [|c a IH].
  - destruct k; [intros _; apply includes_empty|done].
  - rewrite JsFacts.app_cons, !includes_cons.
    intros [Hp|Hin]%orb_true_iff.
    + apply (prefix_app k (String c a) b) in Hp.
      rewrite JsFacts.app_cons in Hp. by rewrite Hp.
    + rewrite (IH Hin). apply orb_true_r.
Qed.

Lemma includes_app_r (a b k : string) :
  Js.includes b k = true → Js.includes (a +:+ b) k = true.
Proof.
  intros Hin. induction a as [|c a IH]; [done|].
  rewrite JsFacts.app_cons, includes_cons, IH. apply orb_true_r.
Qed.

Lemma keyword_app (ks : list string) (a b : string) :
  existsb (λ keyword, Js.includes (Js.toLowerCase a) keyword) ks = true
  ∨ existsb (λ keyword, Js.includes (Js.toLowerCase b) keyword) ks = true →
  existsb (λ keyword, Js.includes (Js.toLowerCase (a +:+ b)) keyword) ks = true.
Proof.
  rewrite toLowerCase_app.
  intros [H|H]; apply existsb_exists in H as (k & Hk & Hin);
    apply existsb_exists; exists k; (split; [done|]).
  - by apply includes_app_l.
  - by apply includes_app_r.
Qed.

(** X19.  Text put before or behind a section never lowers its severity: the
    longer text ranks at least as high as each of its two parts. *)
Theorem severity_never_lowered (a b : string) :
  (rank (getSeverity (a +:+ b)) ≤ rank (getSeverity a))%nat
  ∧ (rank (getSeverity (a +:+ b)) ≤ rank (getSeverity b))%nat.
Proof.
  pose proof (keyword_app highKeywords a b) as Hhigh.
  pose proof (keyword_app mediumKeywords a b) as Hmedium.
  unfold getSeverity. cbv zeta.
  destruct (existsb (λ keyword, Js.includes (Js.toLowerCase (a +:+ b)) keyword)
              highKeywords);
    destruct (existsb (λ keyword, Js.includes (Js.toLowerCase a) keyword)
                highKeywords);
    destruct (existsb (λ keyword, Js.includes (Js.toLowerCase b) keyword)
                highKeywords);
    destruct (existsb (λ keyword, Js.includes (Js.toLowerCase (a +:+ b)) keyword)
                mediumKeywords);
    destruct (existsb (λ keyword, Js.includes (Js.toLowerCase a) keyword)
                mediumKeywords);
    destruct (existsb (λ keyword, Js.includes (Js.toLowerCase b) keyword)
                mediumKeywords);
    simpl;
    first [ lia
          | by (assert (false = true) by (apply Hhigh; auto))
          | by (assert (false = true) by (apply Hmedium; auto)) ].
Qed.

(** *** Ids and descriptions *)

Lemma issueId_inj (i j : nat) : issueId i = issueId j → i = j.
Proof.
  unfold issueId. intros Heq. apply JsFacts.app_inv_head in Heq.
  apply (inj pretty) in Heq. lia.
Qed.

(** Every line of [linesOf] has a character that is not white space. *)
Lemma linesOf_ink (section : string) :
  Forall (λ line, has_ink line = true) (linesOf section).
Proof.
  unfold linesOf. apply Forall_forall. intros line Hin.
  apply list_elem_of_In, filter_In in Hin as [Hin Htruthy].
  apply list_elem_of_In, list_elem_of_fmap in Hin as (raw & -> & _).
  rewrite truthy_trim in Htruthy. by rewrite has_ink_trim.
Qed.

Lemma has_ink_join (sep first : string) (more : list string) :
  has_ink first = true → has_ink (Js.join sep (first :: more)) = true.
Proof.
  intros Hink. unfold Js.join. destruct more as [|second more]; simpl; [done|].
  by rewrite has_ink_app, Hink.
Qed.

Lemma forEachSection_descriptions (index : nat) (ss : list string) :
  Forall (λ issue, has_ink (description issue) = true) (forEachSection index ss).
Proof.
  revert index. induction ss as [|section ss IH]; intros index; simpl; [done|].
  pose proof (linesOf_ink section) as Hlines.
  destruct (linesOf section) as [|firstLine more]; [apply IH|].
  inversion Hlines as [|? ? Hfirst Hmore]; subst.
  constructor; [|apply IH]. simpl.
  destruct more as [|second more]; [done|].
  inversion Hmore as [|? ? Hsecond _]; subst.
  by rewrite (has_ink_truthy _ (has_ink_join " " second more Hsecond)),
       (has_ink_join " " second more Hsecond).
Qed.

Lemma forEachSection_ids (index : nat) (ss : list string) :
  Forall (λ issue, ∃ k, (index ≤ k)%nat ∧ id issue = issueId k)
         (forEachSection index ss).
Proof.
  revert index. induction ss as [|section ss IH]; intros index; simpl; [done|].
  assert (Hrest : Forall (λ issue, ∃ k, (index ≤ k)%nat ∧ id issue = issueId k)
                         (forEachSection (S index) ss)).
  { eapply Forall_impl; [apply IH|].
    intros issue (k & Hk & Hid). exists k. split; [lia|done]. }
  destruct (linesOf section) as [|firstLine more]; [done|].
  constructor; [|done]. exists index. by split.
Qed.

Lemma forEachSection_NoDup (index : nat) (ss : list string) :
  NoDup (id <$> forEachSection index ss).
Proof.
  revert index. induction ss as [|section ss IH]; intros index; simpl;
    [constructor|].
  destruct (linesOf section) as [|firstLine more]; [apply IH|].
  rewrite fmap_cons. constructor; [|apply IH]. simpl.
  intros Hin. apply list_elem_of_fmap in Hin as (issue & Hid & Hin).
  pose proof (forEachSection_ids (S index) ss) as Hids.
  rewrite Forall_forall in Hids.
  destruct (Hids issue Hin) as (k & Hk & Hidk).
  rewrite Hidk in Hid. apply issueId_inj in Hid. lia.
Qed.

(** X20.  The issues of an analysis have pairwise distinct ids, and each has
    a description with a character that is not white space. *)
Theorem issues_well_formed (text : string) :
  NoDup (id <$> parseIssuesFromAnalysis text)
  ∧ Forall (λ issue, has_ink (description issue) = true)
           (parseIssuesFromAnalysis text).
Proof.
  unfold parseIssuesFromAnalysis. destruct (negb (Js.truthy text)).
  - split; constructor.
  - split; [apply forEachSection_NoDup|apply forEachSection_descriptions].
Qed.

(** *** Blank text *)

Lemma split_blank (skip : nat) (cur s : string) :
  has_ink cur = false → has_ink s = false →
  Forall (λ piece, has_ink piece = false)
         (ScrollableIssuesList.split_go skip cur s).
Proof.
  revert skip cur. induction s as [|c s IH]; intros skip cur Hcur Hs; simpl.
  - constructor; [by rewrite has_ink_rev|constructor].
  - simpl in Hs. apply orb_false_iff in Hs as [Hc Hs].
    assert (Hpush : has_ink (String c cur) = false) by (simpl; by rewrite Hc, Hcur).
    destruct skip as [|k]; [|by apply IH].
    destruct (Ascii.eqb c "010"); [|by apply IH].
    destruct (spaces_look s) as [k|]; [|by apply IH].
    constructor; [by rewrite has_ink_rev|by apply IH].
Qed.

(** X21.  An analysis made of white space only, or empty, gives no issue. *)
Theorem blank_text_no_issues (text : string) :
  has_ink text = false → parseIssuesFromAnalysis text = [].
Proof.
  intros Hblank. unfold parseIssuesFromAnalysis.
  destruct (negb (Js.truthy text)); [done|].
  assert (Hnone : sections text = []); [|by rewrite Hnone].
  unfold sections.
  pose proof (split_blank 0 "" text eq_refl Hblank) as Hall.
  induction Hall as [|piece pieces Hpiece _ IH]; simpl; [done|].
  by rewrite truthy_trim, Hpiece.
Qed.

Lemma blank_text_witness :
  has_ink (" " +:+ MultiDocumentUpload.nl +:+ "  ") = false
  ∧ parseIssuesFromAnalysis (" " +:+ MultiDocumentUpload.nl +:+ "  ") = [].
Proof.
  assert (Hblank : has_ink (" " +:+ MultiDocumentUpload.nl +:+ "  ") = false)
    by (vm_compute; reflexivity).
  split; [exact Hblank|]. exact (blank_text_no_issues _ Hblank).
Defined.

(** *** Expanding and following an issue *)

(** X22.  Toggling an issue twice leaves the set of expanded issues as it
    was, and toggling it once changes the membership of that issue and
    of no other. *)
Theorem toggle_twice (issueId : string) (prev : gset string) :
  toggleIssueExpansion issueId (toggleIssueExpansion issueId prev) = prev
  ∧ (issueId ∈ toggleIssueExpansion issueId prev ↔ issueId ∉ prev)
  ∧ ∀ other, other ≠ issueId →
      (other ∈ toggleIssueExpansion issueId prev ↔ other ∈ prev).
Proof.
  unfold toggleIssueExpansion.
  destruct (decide (issueId ∈ prev)) as [Hin|Hout].
  - rewrite decide_False by (set_unfold; intuition congruence).
    split; [|set_unfold; intuition congruence].
    apply set_eq. intros x. destruct (decide (x = issueId)) as [->|Hne];
      set_unfold; intuition congruence.
  - rewrite decide_True by (set_unfold; intuition congruence).
    split; [|set_unfold; intuition congruence].
    apply set_eq. intros x. destruct (decide (x = issueId)) as [->|Hne];
      set_unfold; intuition congruence.
Qed.

(** What [find] returns is the first entry that passes the test. *)
Lemma find_first {A} (f : A → bool) (l : list A) (x : A) :
  List.find f l = Some x →
  ∃ i, l !! i = Some x ∧ f x = true
       ∧ ∀ j y, (j < i)%nat → l !! j = Some y → f y = false.
Proof.
  induction l as [|a l IH]; simpl; [done|].
  destruct (f a) eqn:Ha.
  - intros [= ->]. exists 0%nat. split; [done|]. split; [done|]. lia.
  - intros Hfind. destruct (IH Hfind) as (i & Hi & Hx & Hfirst).
    exists (S i). split; [done|]. split; [done|].
    intros [|j] y Hlt Hy.
    + injection Hy as <-. exact Ha.
    + apply (Hfirst j y); [lia|done].
Qed.

Lemma find_nothing {A} (f : A → bool) (l : list A) :
  List.find f l = None → ∀ y, y ∈ l → f y = false.
Proof.
  intros Hfind y Hy. apply (find_none f l Hfind). by apply list_elem_of_In.
Qed.

(** X23.  A click on the clause of an issue opens a document of the list,
    whatever document the issue names.  When the issue names a
    document, the one opened is the first of the list whose file name,
    in lower case, contains the name in lower case or whose file name
    without extension, in lower case, is contained in it: no document
    before it in the list passes that test.  When the issue names none,
    names the empty string, or no document of the list passes the test,
    the first document of the list is opened. *)
Theorem target_is_listed (documents : list ListedDocument)
    (documentName : option string) :
  documents ≠ [] →
  ∃ i doc,
    documents !! i = Some doc
    ∧ targetDocumentId documents documentName = Some (d_id doc)
    ∧ ((∃ name, documentName = Some name ∧ name ≠ ""
                ∧ names_document name doc = true
                ∧ ∀ j earlier, (j < i)%nat → documents !! j = Some earlier →
                               names_document name earlier = false)
       ∨ (i = 0%nat
          ∧ ∀ name, documentName = Some name → name ≠ "" →
                    ∀ other, other ∈ documents →
                             names_document name other = false)).
Proof.
  intros Hsome. destruct documents as [|first rest]; [done|].
  unfold targetDocumentId. cbv zeta.
  destruct documentName as [name|]; simpl Js.truthy_opt;
    [|exists 0%nat, first; split; [done|]; split; [done|]; right;
      split; [done|]; intros name [=]].
  destruct name as [|c name]; simpl Js.truthy;
    [exists 0%nat, first; split; [done|]; split; [done|]; right;
     split; [done|]; by intros name [= <-]|].
  change (default "" (Some (String c name))) with (String c name).
  destruct (List.find _ (first :: rest)) as [matchedDoc|] eqn:Hfind.
  - destruct (find_first _ _ _ Hfind) as (i & Hi & Hmatch & Hfirst).
    exists i, matchedDoc. split; [exact Hi|]. split; [done|]. left.
    exists (String c name). by repeat split.
  - exists 0%nat, first. split; [done|]. split; [done|]. right.
    split; [done|]. intros name' [= <-] _.
    by apply find_nothing.
Qed.

(** The issue names the annex in capitals: the second document of the
    list is opened, the contract before it does not pass the test. *)
Lemma target_witness :
  [mkListed "doc_5_0" "contract.pdf" "completed";
   mkListed "doc_5_1" "annex.pdf" "completed"] ≠ []
  ∧ targetDocumentId [mkListed "doc_5_0" "contract.pdf" "completed";
                      mkListed "doc_5_1" "annex.pdf" "completed"]
                     (Some "Annex.PDF") = Some "doc_5_1"
  ∧ ∃ i doc,
      [mkListed "doc_5_0" "contract.pdf" "completed";
       mkListed "doc_5_1" "annex.pdf" "completed"] !! i = Some doc
      ∧ targetDocumentId [mkListed "doc_5_0" "contract.pdf" "completed";
                          mkListed "doc_5_1" "annex.pdf" "completed"]
                         (Some "Annex.PDF") = Some (d_id doc)
      ∧ names_document "Annex.PDF" doc = true.
Proof.
  assert (Hsome : [mkListed "doc_5_0" "contract.pdf" "completed";
                   mkListed "doc_5_1" "annex.pdf" "completed"] ≠ [])
    by discriminate.
  split; [exact Hsome|]. split; [vm_compute; reflexivity|].
  destruct (target_is_listed _ (Some "Annex.PDF") Hsome)
    as (i & doc & Hi & Htarget & Hrule).
  exists i, doc. split; [exact Hi|]. split; [exact Htarget|].
  destruct Hrule as [(name & [= <-] & _ & Hmatch & _)|[_ Hnone]];
    [exact Hmatch|].
  exfalso.
  assert (Hannex : names_document "Annex.PDF"
                     (mkListed "doc_5_1" "annex.pdf" "completed") = true)
    by (vm_compute; reflexivity).
  rewrite (Hnone "Annex.PDF" eq_refl) in Hannex; [discriminate Hannex|done|].
  right. left.
Defined.

End IssueMore.

(** ** Cleaning a text for display *)

Module DisplayFacts.
Import DisplayText.

Lemma run_true (cls : ascii → bool) (c : ascii) (s : string) :
  cls c = true → leading cls (String c s) = S (leading cls s).
Proof. intros Hc. simpl. by rewrite Hc. Qed.

Lemma run_false (cls : ascii → bool) (c : ascii) (s : string) :
  cls c = false → leading cls (String c s) = 0%nat.
Proof. intros Hc. simpl. by rewrite Hc. Qed.

Lemma run_positive (cls : ascii → bool) (c : ascii) (s : string) :
  (0 < leading cls (String c s))%nat → cls c = true.
Proof. simpl. destruct (cls c); [done|lia]. Qed.

Lemma run_le (is1 is2 : ascii → bool) (s : string) :
  (∀ c, is1 c = true → is2 c = true) →
  (leading is1 s ≤ leading is2 s)%nat.
Proof.
  intros Hsub. induction s as [|c s IH]; simpl; [done|].
  destruct (is1 c) eqn:H1; [|lia]. rewrite (Hsub c H1). lia.
Qed.

Lemma replaceRuns_pass (cls : ascii → bool) (least : nat) (by_ : string)
    (c : ascii) (s : string) :
  (leading cls (String c s) < least)%nat →
  replaceRuns cls least by_ 0 (String c s)
  = String c (replaceRuns cls least by_ 0 s).
Proof.
  intros Hshort.
  change (replaceRuns cls least by_ 0 (String c s))
    with (if (least <=? leading cls (String c s))%nat
          then by_ +:+ replaceRuns cls least by_ (leading cls (String c s) - 1) s
          else String c (replaceRuns cls least by_ 0 s)).
  destruct (Nat.leb_spec least (leading cls (String c s))); [lia|done].
Qed.

Lemma replaceRuns_hit (cls : ascii → bool) (least : nat) (by_ : string)
    (c : ascii) (s : string) :
  (least ≤ leading cls (String c s))%nat →
  replaceRuns cls least by_ 0 (String c s)
  = by_ +:+ replaceRuns cls least by_ (leading cls (String c s) - 1) s.
Proof.
  intros Hlong.
  change (replaceRuns cls least by_ 0 (String c s))
    with (if (least <=? leading cls (String c s))%nat
          then by_ +:+ replaceRuns cls least by_ (leading cls (String c s) - 1) s
          else String c (replaceRuns cls least by_ 0 s)).
  destruct (Nat.leb_spec least (leading cls (String c s))); [done|lia].
Qed.

(** After the white-space pass no three white-space characters stand in
    a row; the second component tells how the output starts. *)
Lemma squeeze_runs (s : string) (skip : nat) :
  skip = 0%nat ∨ skip = leading Js.is_space s →
  no_run Js.is_space 3 (replaceRuns Js.is_space 3 "  " skip s) = true
  ∧ leading Js.is_space (replaceRuns Js.is_space 3 "  " skip s)
    = match skip with
      | O => if (3 <=? leading Js.is_space s)%nat then 2%nat else leading Js.is_space s
      | S _ => 0%nat
      end.
Proof.
  revert skip. induction s as [|c s IH]; intros skip Hskip.
  - simpl in *. by destruct Hskip as [-> | ->].
  - destruct skip as [|k].
    + destruct (Nat.leb_spec 3 (leading Js.is_space (String c s))) as [Hlong|Hshort].
      * rewrite replaceRuns_hit by done.
        assert (Hc : Js.is_space c = true) by (apply (run_positive _ c s); lia).
        rewrite (run_true _ c s Hc) in *.
        replace (S (leading Js.is_space s) - 1)%nat with (leading Js.is_space s) by lia.
        destruct (IH (leading Js.is_space s)) as [Hno Hrun]; [by right|].
        destruct (leading Js.is_space s) as [|n] eqn:Hn; [lia|].
        change ("  " +:+ ?x) with (String " " (String " " x)).
        simpl. rewrite Hrun, Hno. done.
      * rewrite replaceRuns_pass by done.
        destruct (IH 0%nat) as [Hno Hrun]; [by left|].
        destruct (Js.is_space c) eqn:Hc.
        -- rewrite (run_true _ c s Hc) in Hshort.
           destruct (Nat.leb_spec 3 (leading Js.is_space s)); [lia|].
           rewrite (run_true _ c _ Hc), (run_true _ c s Hc).
           split; [|by rewrite Hrun].
           change (no_run Js.is_space 3 (String c ?x))
             with ((leading Js.is_space (String c x) <? 3)%nat
                   && no_run Js.is_space 3 x).
           rewrite (run_true _ c _ Hc), Hrun, Hno.
           apply andb_true_iff. split; [apply Nat.ltb_lt; lia|done].
        -- rewrite (run_false _ c _ Hc), (run_false _ c s Hc).
           split; [|done].
           change (no_run Js.is_space 3 (String c ?x))
             with ((leading Js.is_space (String c x) <? 3)%nat
                   && no_run Js.is_space 3 x).
           by rewrite (run_false _ c _ Hc), Hno.
    + destruct Hskip as [Hskip|Hskip]; [done|].
      assert (Hc : Js.is_space c = true)
        by (apply (run_positive _ c s); lia).
      rewrite (run_true _ c s Hc) in Hskip. injection Hskip as ->.
      change (replaceRuns Js.is_space 3 "  " (S (leading Js.is_space s)) (String c s))
        with (replaceRuns Js.is_space 3 "  " (leading Js.is_space s) s).
      destruct (IH (leading Js.is_space s)) as [Hno Hrun]; [by right|].
      split; [done|]. rewrite Hrun.
      destruct (leading Js.is_space s) as [|n] eqn:Hn; [|done].
      reflexivity.
Qed.

Lemma line_feed_is_space (c : ascii) :
  Ascii.eqb "010" c = true → Js.is_space c = true.
Proof. intros Heq. by apply Ascii.eqb_eq in Heq as <-. Qed.

(** Where no three white-space characters stand in a row, the pass for
    four line feeds finds nothing to replace. *)
Lemma line_feed_pass_idle (by_ : string) (s : string) :
  no_run Js.is_space 3 s = true →
  replaceRuns (Ascii.eqb "010") 4 by_ 0 s = s.
Proof.
  induction s as [|c s IH]; [done|].
  change (no_run Js.is_space 3 (String c s))
    with ((leading Js.is_space (String c s) <? 3)%nat && no_run Js.is_space 3 s).
  intros [Hrun Hno]%andb_true_iff. apply Nat.ltb_lt in Hrun.
  pose proof (run_le (Ascii.eqb "010") Js.is_space (String c s)
                line_feed_is_space) as Hle.
  rewrite replaceRuns_pass by lia. by rewrite IH.
Qed.

Lemma no_run_at (cls : ascii → bool) (n : nat) (s : string) (i : nat) :
  no_run cls n s = true → (leading cls (drop i s) < n)%nat ∨ drop i s = EmptyString.
Proof.
  revert s. induction i as [|i IH]; intros [|c s] Hno; simpl; try by right.
  - left. simpl in Hno. apply andb_true_iff in Hno as [Hrun _].
    by apply Nat.ltb_lt in Hrun.
  - apply IH. simpl in Hno. by apply andb_true_iff in Hno as [_ Hno].
Qed.

Lemma get_drop (s : string) (i j : nat) :
  String.get (i + j) s = String.get j (drop i s).
Proof.
  revert s. induction i as [|i IH]; intros [|c s]; simpl; done.
Qed.

(** X24.  The pass that replaces four or more line feeds by three never
    changes the text: the pass before it has already replaced every
    run of three or more white-space characters, line feeds included,
    by two spaces.  So the cleaned text is what the first two passes
    give, and no three white-space characters stand in a row in it. *)
Theorem line_feed_rule_is_dead (text : string) :
  cleanTextForDisplay text = squeezed text
  ∧ ∀ i a b c,
      String.get i (cleanTextForDisplay text) = Some a →
      String.get (S i) (cleanTextForDisplay text) = Some b →
      String.get (S (S i)) (cleanTextForDisplay text) = Some c →
      Js.is_space a && Js.is_space b && Js.is_space c = false.
Proof.
  destruct (squeeze_runs (joinSpacedLetters 0 None text) 0) as [Hno _];
    [by left|].
  fold (squeezed text) in Hno.
  assert (Hsame : cleanTextForDisplay text = squeezed text).
  { unfold cleanTextForDisplay. destruct text as [|c text]; [done|].
    simpl negb. cbv iota zeta.
    apply (line_feed_pass_idle _ _ Hno). }
  split; [exact Hsame|]. rewrite Hsame.
  intros i a b c Ha Hb Hc.
  replace i with (i + 0)%nat in Ha by lia.
  replace (S i) with (i + 1)%nat in Hb by lia.
  replace (S (S i)) with (i + 2)%nat in Hc by lia.
  rewrite get_drop in Ha, Hb, Hc.
  destruct (no_run_at _ _ _ i Hno) as [Hrun|Hend];
    [|by rewrite Hend in Ha].
  destruct (drop i (squeezed text)) as [|a' [|b' [|c' rest]]];
    simpl in Ha, Hb, Hc; try done.
  injection Ha as ->. injection Hb as ->. injection Hc as ->.
  simpl in Hrun.
  destruct (Js.is_space a), (Js.is_space b), (Js.is_space c); simpl; try done.
  lia.
Qed.

End DisplayFacts.

(** ** The single-document form *)

Module FormFacts.
Import Handler DocumentUpload.

Ltac run_form :=
  unfold handleSubmit, loadDocumentContent, extractedText, requests_of,
    try_finally, try_catch, fetch, await, get_ui, setLoading, setAnalysis,
    setDocumentContent, setLoadingDocument, modify_ui,
    mbind, H_bind, mret, H_ret, mthrow, H_throw;
  simpl.

(** X25.  A submission with a file and a prompt always comes to its end:
    however the reading of the file, the text extraction and the
    analysis turn out, [handleSubmit] returns, both loading flags are
    down again, and the analysis was requested, after the extraction
    unless the file is plain text, even when the text could not be
    loaded. *)
Theorem submit_settles (srv : Server) (w : World) (f : Upload) :
  file (ui w) = Some f →
  Js.truthy (prompt (ui w)) = true →
  let r := handleSubmit srv w in
  r.1 = Fulfilled tt
  ∧ loading (ui r.2) = false ∧ loadingDocument (ui r.2) = false
  ∧ file (ui r.2) = Some f ∧ prompt (ui r.2) = prompt (ui w)
  ∧ sent r.2 = (sent w ++ requests_of f (prompt (ui w)))%list.
Proof.
  intros Hfile Hprompt r. subst r. run_form.
  rewrite Hfile, Hprompt. simpl.
  destruct (String.eqb (u_type f) "text/plain"); simpl.
  - destruct (u_text f) as [text|msg]; simpl;
      destruct (analyze srv f _) as [[o st [result|m]]|m]; simpl;
      by rewrite ?app_nil_l.
  - destruct (extract_text srv f) as [[o st [[e t]|m]]|m]; simpl;
      try destruct o; simpl; try destruct (Js.truthy_opt e); simpl;
      destruct (analyze srv f _) as [[o' st' [result|m']]|m']; simpl;
      by rewrite <- ?app_assoc.
Qed.

Lemma submit_witness :
  file (ui readyForm) = Some scannedLease
  ∧ loading (ui (handleSubmit brokenServer readyForm).2) = false
  ∧ sent (handleSubmit brokenServer readyForm).2
    = [PostExtractText scannedLease;
       PostAnalyze scannedLease "Review this lease."].
Proof.
  assert (Hfile : file (ui readyForm) = Some scannedLease) by reflexivity.
  split; [exact Hfile|].
  destruct (submit_settles brokenServer readyForm scannedLease Hfile)
    as (_ & Hloading & _ & _ & _ & Hsent); [reflexivity|].
  split; [exact Hloading|exact Hsent].
Defined.

(** X26.  The analysis that is shown after a submission is the [analysis]
    field of the body, whenever the body parses: the status of the
    response is not looked at, so an error answer of the back end is
    taken for a result, and shows nothing when it has no such field.
    The message of a failed analysis is shown only when the request
    itself fails or the body does not parse. *)
Theorem analysis_ignores_status (srv : Server) (w : World) (f : Upload) :
  file (ui w) = Some f →
  Js.truthy (prompt (ui w)) = true →
  let shown := analysis (ui (handleSubmit srv w).2) in
  match analyze srv f (prompt (ui w)) with
  | Fulfilled response =>
      match body response with
      | Fulfilled result => shown = a_analysis result
      | Rejected _ => shown = Some analysisFailed
      end
  | Rejected _ => shown = Some analysisFailed
  end.
Proof.
  intros Hfile Hprompt shown. subst shown. run_form.
  rewrite Hfile, Hprompt. simpl.
  destruct (String.eqb (u_type f) "text/plain"); simpl.
  - destruct (u_text f) as [text|msg]; simpl;
      by destruct (analyze srv f _) as [[o st [result|m]]|m].
  - destruct (extract_text srv f) as [[o st [[e t]|m]]|m]; simpl;
      try destruct o; simpl; try destruct (Js.truthy_opt e); simpl;
      by destruct (analyze srv f _) as [[o' st' [result|m']]|m'].
Qed.

Lemma analysis_witness :
  file (ui readyForm) = Some scannedLease
  ∧ analysis (ui (handleSubmit brokenServer readyForm).2) = None.
Proof.
  assert (Hfile : file (ui readyForm) = Some scannedLease) by reflexivity.
  split; [exact Hfile|].
  exact (analysis_ignores_status brokenServer readyForm scannedLease Hfile eq_refl).
Defined.

End FormFacts.

(** ** The document tabs *)

Module TabsFacts.
Import Handler DocumentTabs.

Ltac run_tabs :=
  unfold loadDocumentContent, extractedText, try_catch, fetch, await,
    get_contents, setContent, mbind, H_bind, mret, H_ret, mthrow, H_throw;
  simpl.

(** A load that finds something under the id of the document returns at
    once. *)
Lemma load_idle
    (extract_text : Upload → Settled (Response ExtractResult))
    (doc : TabDocument) (w : World) :
  truthy_at (documentContents w) (t_id doc) = true →
  loadDocumentContent extract_text doc w = (Fulfilled tt, w).
Proof.
  intros Hfound. unfold loadDocumentContent, get_contents, mbind, H_bind.
  simpl. by rewrite Hfound.
Qed.

(** X27.  The first load of a document whose id is not the name of a property
    that every object inherits always comes to its end and leaves an
    entry that is not loading any more: either a text without an error
    or an error without a text.  The entries of the other documents
    stay as they are, and the back end is asked once, unless the file
    is plain text. *)
Theorem first_load_settles
    (extract_text : Upload → Settled (Response ExtractResult))
    (doc : TabDocument) (w : World) :
  documentContents w !! t_id doc = None →
  inherited (t_id doc) = false →
  let r := loadDocumentContent extract_text doc w in
  r.1 = Fulfilled tt
  ∧ (∃ entry, documentContents r.2 !! t_id doc = Some entry
              ∧ loading entry = false
              ∧ (error entry = None
                 ∨ content entry = ""
                   ∧ ∃ msg, error entry
                            = Some ("Error loading document: " +:+ msg)))
  ∧ (∀ i, i ≠ t_id doc → documentContents r.2 !! i = documentContents w !! i)
  ∧ sent r.2 = (sent w ++ if String.eqb (u_type (t_file doc)) "text/plain"
                          then [] else [t_file doc])%list.
Proof.
  intros Hnew Hplain r. subst r. run_tabs. unfold truthy_at.
  rewrite Hnew, Hplain. simpl.
  destruct (String.eqb (u_type (t_file doc)) "text/plain"); simpl.
  - destruct (u_text (t_file doc)) as [text|msg]; simpl;
      (split; [done|]); (split; [|split]);
      try (by rewrite app_nil_r);
      try (intros i Hi; by rewrite !lookup_insert_ne);
      eexists; rewrite lookup_insert_eq; (split; [done|]); simpl;
      (split; [done|]); [by left|right; by eauto].
  - destruct (extract_text (t_file doc)) as [[o st [[e t]|m]]|m]; simpl;
      try destruct o; simpl; try destruct (Js.truthy_opt e); simpl;
      (split; [done|]); (split; [|split]);
      try done;
      try (intros i Hi; by rewrite !lookup_insert_ne);
      eexists; rewrite lookup_insert_eq; (split; [done|]); simpl;
      (split; [done|]); first [by left|right; by eauto].
Qed.

Lemma first_load_witness :
  documentContents (mkWorld ∅ []) !! t_id lease = None
  ∧ inherited (t_id lease) = false
  ∧ sent (loadDocumentContent down lease (mkWorld ∅ [])).2 = [t_file lease].
Proof.
  assert (Hnew : documentContents (mkWorld ∅ []) !! t_id lease = None)
    by reflexivity.
  assert (Hplain : inherited (t_id lease) = false) by reflexivity.
  split; [exact Hnew|]. split; [exact Hplain|].
  destruct (first_load_settles down lease (mkWorld ∅ []) Hnew Hplain)
    as (_ & _ & _ & Hsent).
  exact Hsent.
Defined.

(** X28.  The text of a document is asked for at most once: after a load,
    whatever its outcome, every later load of the document changes
    nothing and sends nothing, whatever the back end would answer
    then, so a load that failed is not tried again.  After the load the
    document has an entry, unless its id is the name of a property that
    every object inherits ('constructor', 'toString', '__proto__' and
    the like): the text of such a document is never asked for and it
    never gets an entry, its load returns at once. *)
Theorem load_once
    (extract_text later : Upload → Settled (Response ExtractResult))
    (doc : TabDocument) (w : World) :
  let w1 := (loadDocumentContent extract_text doc w).2 in
  loadDocumentContent later doc w1 = (Fulfilled tt, w1)
  ∧ (inherited (t_id doc) = false → is_Some (documentContents w1 !! t_id doc))
  ∧ (inherited (t_id doc) = true →
     loadDocumentContent extract_text doc w = (Fulfilled tt, w)).
Proof.
  intros w1.
  assert (Hfound : truthy_at (documentContents w1) (t_id doc) = true
                   ∧ (inherited (t_id doc) = false →
                      is_Some (documentContents w1 !! t_id doc))).
  { subst w1. run_tabs. unfold truthy_at.
    destruct (documentContents w !! t_id doc) as [entry|] eqn:Hold; simpl;
      [by rewrite Hold|].
    destruct (inherited (t_id doc)) eqn:Hplain; simpl;
      [by rewrite Hold|].
    destruct (String.eqb (u_type (t_file doc)) "text/plain"); simpl.
    - destruct (u_text (t_file doc)) as [text|msg]; simpl;
        by rewrite lookup_insert_eq.
    - destruct (extract_text (t_file doc)) as [[o st [[e t]|m]]|m]; simpl;
        try destruct o; simpl; try destruct (Js.truthy_opt e); simpl;
        by rewrite lookup_insert_eq. }
  destruct Hfound as [Hfound Hentry].
  split; [by apply load_idle|]. split; [exact Hentry|].
  intros Hodd. apply load_idle. unfold truthy_at. rewrite Hodd.
  by destruct (documentContents w !! t_id doc).
Qed.

(** A document with the id 'constructor' is never loaded. *)
Lemma load_once_witness :
  inherited (t_id oddLease) = true
  ∧ loadDocumentContent up oddLease (mkWorld ∅ []) = (Fulfilled tt, mkWorld ∅ []).
Proof.
  assert (Hodd : inherited (t_id oddLease) = true) by reflexivity.
  split; [exact Hodd|].
  destruct (load_once up down oddLease (mkWorld ∅ [])) as (_ & _ & Hidle).
  exact (Hidle Hodd).
Defined.

End TabsFacts.

(** ** Document references in an analysis *)

Module ReferenceFacts.
Import AnalysisResults.

(** *** Pieces of a string *)

Lemma substring_empty (a n : nat) : substring a n "" = "".
Proof. by destruct a, n. Qed.

Lemma substring_none (a : nat) (s : string) : substring a 0 s = "".
Proof.
  revert a. induction s as [|c s IH]; intros a; [apply substring_empty|].
  destruct a as [|a]; [done|]. apply IH.
Qed.

Lemma substring_app (a n m : nat) (s : string) :
  substring a (n + m) s = substring a n s +:+ substring (a + n) m s.
Proof.
  revert a n. induction s as [|c s IH]; intros a n.
  - by rewrite !substring_empty.
  - destruct a as [|a]; [|apply IH].
    destruct n as [|n]; [done|].
    simpl. rewrite JsFacts.app_cons. f_equal. apply (IH 0%nat).
Qed.

Lemma substring_all (s : string) : substring 0 (String.length s) s = s.
Proof. induction s as [|c s IH]; [done|]. simpl. by rewrite IH. Qed.

Lemma substring_behind (pre s : string) (a n : nat) :
  substring (String.length pre + a) n (pre +:+ s) = substring a n s.
Proof. induction pre as [|c pre IH]; [done|]. apply IH. Qed.

Lemma length_substring (n : nat) (s : string) :
  (n ≤ String.length s)%nat → String.length (substring 0 n s) = n.
Proof.
  revert n. induction s as [|c s IH]; intros [|n] Hn; simpl in *; try done; try lia.
  f_equal. apply IH. lia.
Qed.

Lemma length_substring_le (n : nat) (s : string) :
  (String.length (substring 0 n s) ≤ String.length s)%nat.
Proof.
  revert n. induction s as [|c s IH]; intros [|n]; simpl; try lia.
  specialize (IH n). lia.
Qed.

(** *** The parts keep the text *)

Lemma joined_app (a b : list Part) : joined (a ++ b) = joined a +:+ joined b.
Proof.
  induction a as [|part a IH]; [done|].
  simpl. by rewrite IH, JsFacts.app_assoc.
Qed.

Lemma app_empty_r (s : string) : s +:+ "" = s.
Proof. induction s as [|c s IH]; [done|]. by rewrite JsFacts.app_cons, IH. Qed.

(** The loop over one text comes to its end within the turns it is
    given, and what it pushes is the text from [lastIndex] on. *)
Lemma scan_joined (pattern : Pattern) (c : string) :
  sound pattern →
  ∀ turns lastIndex newParts,
    (lastIndex ≤ String.length c)%nat →
    (String.length c - lastIndex < turns)%nat →
    ∃ pushed, scan pattern c turns lastIndex newParts
              = Some (newParts ++ pushed)%list
              ∧ joined pushed
                = substring lastIndex (String.length c - lastIndex) c.
Proof.
  intros Hsound. induction turns as [|turns IH];
    intros lastIndex newParts Hin Hturns; [lia|].
  simpl. destruct (pattern c lastIndex) as [m|] eqn:Hexec.
  - destruct (Hsound c lastIndex m Hexec) as (Hfrom & Hlen & Hfit & Hwhole).
    destruct (IH (index m + String.length (whole m))%nat
                ((if (lastIndex <? index m)%nat
                  then (newParts ++ [Text (slice lastIndex (index m) c)])%list
                  else newParts)
                 ++ [DocumentReference (whole m) (group1 m)])%list)
      as (pushed & Hscan & Hjoined); [lia|lia|].
    rewrite Hscan.
    assert (Hpiece : substring lastIndex (String.length c - lastIndex) c
                     = slice lastIndex (index m) c +:+ whole m
                       +:+ substring (index m + String.length (whole m))
                             (String.length c
                              - (index m + String.length (whole m))) c).
    { unfold slice. rewrite <- Hwhole at 1.
      replace (String.length c - lastIndex)%nat
        with ((index m - lastIndex)
              + (String.length (whole m)
                 + (String.length c - (index m + String.length (whole m)))))%nat
        by lia.
      rewrite substring_app.
      replace (lastIndex + (index m - lastIndex))%nat with (index m) by lia.
      by rewrite substring_app. }
    destruct (Nat.ltb_spec lastIndex (index m)) as [Hgap|Hnone].
    + exists (Text (slice lastIndex (index m) c)
              :: DocumentReference (whole m) (group1 m) :: pushed).
      split; [by rewrite <- !app_assoc|].
      simpl. by rewrite Hjoined, Hpiece.
    + exists (DocumentReference (whole m) (group1 m) :: pushed).
      split; [by rewrite <- !app_assoc|].
      simpl. rewrite Hjoined, Hpiece. unfold slice.
      replace (index m - lastIndex)%nat with 0%nat by lia.
      by rewrite substring_none.
  - destruct (Nat.ltb_spec lastIndex (String.length c)) as [Hrest|Hend].
    + exists [Text (slice lastIndex (String.length c) c)].
      split; [done|]. simpl. apply app_empty_r.
    + exists []. split; [by rewrite app_nil_r|].
      replace (String.length c - lastIndex)%nat with 0%nat by lia.
      by rewrite substring_none.
Qed.

Lemma forEachPart_joined (pattern : Pattern) :
  sound pattern →
  ∀ parts newParts,
    ∃ pushed, forEachPart pattern parts newParts
              = Some (newParts ++ pushed)%list
              ∧ joined pushed = joined parts.
Proof.
  intros Hsound. induction parts as [|part parts IH]; intros newParts.
  - exists []. split; [by rewrite app_nil_r|done].
  - destruct part as [c|c documentName]; cbn [forEachPart].
    + destruct (scan_joined pattern c Hsound (S (String.length c)) 0 newParts)
        as (first & Hscan & Hfirst); [lia|lia|].
      rewrite Hscan. simpl.
      destruct (IH (newParts ++ first)%list) as (pushed & Hrest & Hpushed).
      exists (first ++ pushed)%list.
      split; [by rewrite Hrest, app_assoc|].
      rewrite joined_app, Hfirst, Hpushed, Nat.sub_0_r.
      by rewrite substring_all.
    + destruct (IH (newParts ++ [DocumentReference c documentName])%list)
        as (pushed & Hrest & Hpushed).
      exists (DocumentReference c documentName :: pushed).
      split; [by rewrite Hrest, <- app_assoc|].
      simpl. by rewrite Hpushed.
Qed.

Lemma forEachPattern_joined (patterns : list Pattern) :
  Forall sound patterns →
  ∀ parts, ∃ newParts, forEachPattern patterns parts = Some newParts
                       ∧ joined newParts = joined parts.
Proof.
  induction 1 as [|pattern patterns Hsound _ IH]; intros parts.
  - by exists parts.
  - simpl.
    destruct (forEachPart_joined pattern Hsound parts [])
      as (pushed & Heach & Hpushed).
    rewrite Heach. simpl.
    destruct (IH pushed) as (newParts & Hrest & Hnew).
    exists newParts. split; [done|]. by rewrite Hnew.
Qed.

(** X29.  Whatever the patterns find, as long as no match is empty, the
    parsing comes to its end and its parts, read one after the other,
    are the analysis text: marking the references loses nothing, adds
    nothing and keeps the order. *)
Theorem parts_keep_the_text (patterns : list Pattern) (text : string) :
  Forall sound patterns →
  ∃ parts, parseAnalysisWithReferences patterns text = Some parts
           ∧ joined parts = text.
Proof.
  intros Hsound. unfold parseAnalysisWithReferences.
  destruct (negb (Js.truthy text)).
  - exists [Text text]. split; [done|]. apply app_empty_r.
  - destruct (forEachPattern_joined patterns Hsound [Text text])
      as (parts & Hparts & Hjoined).
    exists parts. split; [done|]. rewrite Hjoined. apply app_empty_r.
Qed.

(** *** The sample pattern *)

Lemma length_toLowerCase (s : string) :
  String.length (Js.toLowerCase s) = String.length s.
Proof. induction s as [|c s IH]; [done|]. simpl. by rewrite IH. Qed.

Lemma length_drop (n : nat) (s : string) :
  String.length (DisplayText.drop n s) = (String.length s - n)%nat.
Proof.
  revert s. induction n as [|n IH]; intros [|c s]; simpl; done.
Qed.

Lemma length_until (close : ascii) (s inner : string) :
  until close s = Some inner → (String.length inner < String.length s)%nat.
Proof.
  revert inner. induction s as [|c s IH]; intros inner; simpl; [done|].
  destruct (Ascii.eqb c close); [intros [= <-]; simpl; lia|].
  destruct (until close s) as [found|]; simpl; [|done].
  intros [= <-]. specialize (IH found eq_refl). simpl. lia.
Qed.

Lemma bracketed_at_fits (s w g : string) :
  bracketed_at s = Some (w, g) →
  (0 < String.length w)%nat ∧ (String.length w ≤ String.length s)%nat
  ∧ substring 0 (String.length w) s = w.
Proof.
  unfold bracketed_at.
  destruct (String.eqb _ "[document:") eqn:Hhead; [|done].
  apply String.eqb_eq, (f_equal String.length) in Hhead.
  rewrite length_toLowerCase in Hhead. simpl in Hhead.
  pose proof (length_substring_le 10 s) as Hten.
  destruct (until "]" (DisplayText.drop 10 s)) as [inner|] eqn:Hinner; [|done].
  apply length_until in Hinner. rewrite length_drop in Hinner.
  destruct (Js.truthy inner); [|done]. intros [= <- <-].
  rewrite length_substring by lia.
  split; [lia|]. split; [lia|done].
Qed.

Lemma search_sound (at_head : string → option (string * string)) :
  (∀ s w g, at_head s = Some (w, g) →
     (0 < String.length w)%nat ∧ (String.length w ≤ String.length s)%nat
     ∧ substring 0 (String.length w) s = w) →
  ∀ s pre lastIndex m,
    search at_head (String.length pre) lastIndex s = Some m →
    (lastIndex ≤ index m)%nat
    ∧ (0 < String.length (whole m))%nat
    ∧ (index m + String.length (whole m) ≤ String.length (pre +:+ s))%nat
    ∧ substring (index m) (String.length (whole m)) (pre +:+ s) = whole m.
Proof.
  intros Hfits. induction s as [|c s IH]; intros pre lastIndex m.
  - simpl. destruct (Nat.leb_spec lastIndex (String.length pre)) as [Hle|Hgt];
      [|done].
    destruct (at_head "") as [[w g]|] eqn:Hat; [|done].
    intros [= <-]. simpl.
    destruct (Hfits _ _ _ Hat) as (Hpos & Hlen & Hsub).
    simpl in Hlen. lia.
  - change (search at_head (String.length pre) lastIndex (String c s))
      with (match (if (lastIndex <=? String.length pre)%nat
                   then at_head (String c s) else None) with
            | Some (w, g) => Some (mkMatch (String.length pre) w g)
            | None => search at_head (S (String.length pre)) lastIndex s
            end).
    assert (Hnext : search at_head (S (String.length pre)) lastIndex s = Some m →
                    (lastIndex ≤ index m)%nat
                    ∧ (0 < String.length (whole m))%nat
                    ∧ (index m + String.length (whole m)
                       ≤ String.length (pre +:+ String c s))%nat
                    ∧ substring (index m) (String.length (whole m))
                                (pre +:+ String c s) = whole m).
    { intros Hfound.
      specialize (IH (pre +:+ String c "") lastIndex m).
      rewrite JsFacts.length_app, Nat.add_1_r, JsFacts.app_assoc in IH.
      by apply IH. }
    destruct (Nat.leb_spec lastIndex (String.length pre)) as [Hle|Hgt];
      [|exact Hnext].
    destruct (at_head (String c s)) as [[w g]|] eqn:Hat; [|exact Hnext].
    intros [= <-]. simpl.
    destruct (Hfits _ _ _ Hat) as (Hpos & Hlen & Hsub).
    split; [done|]. split; [done|]. split.
    + rewrite JsFacts.length_app. lia.
    + rewrite <- (Nat.add_0_r (String.length pre)).
      by rewrite substring_behind.
Qed.

Lemma bracketedDocument_sound : sound bracketedDocument.
Proof.
  intros s lastIndex m Hexec.
  apply (search_sound bracketed_at bracketed_at_fits s "" lastIndex m Hexec).
Qed.

Lemma parts_witness :
  Forall sound [bracketedDocument]
  ∧ ∃ parts, parseAnalysisWithReferences [bracketedDocument] sampleText
             = Some parts
             ∧ joined parts = sampleText.
Proof.
  assert (Hsound : Forall sound [bracketedDocument])
    by (constructor; [exact bracketedDocument_sound|constructor]).
  split; [exact Hsound|].
  exact (parts_keep_the_text [bracketedDocument] sampleText Hsound).
Defined.

End ReferenceFacts.
